(** * A shallow embedding of the amazon-scrape anti-blocking and scraping code

    Python strings are modelled as ASCII strings ([string] or [list ascii]);
    [str.lower] is ASCII lower-casing and [in] on strings is substring search.
    Python floats (the throttle multiplier, delays, noise values) are modelled
    as exact rationals [Q]. *)

From Stdlib Require Import ZArith QArith Qminmax Lqa Lia.
From Stdlib Require Import Ascii String List Bool.
From stdpp Require Import base gmap sets strings pretty.

Import ListNotations.
#[global] Set Warnings "-abstract-large-number".
Open Scope string_scope.

(* ================================================================== *)
(** ** String helpers (Python [str] operations) *)

Definition lower_ascii (c : ascii) : ascii :=
  let n := nat_of_ascii c in
  if (65 <=? n)%nat && (n <=? 90)%nat then ascii_of_nat (n + 32) else c.

(** [s.lower()] *)
Fixpoint lower (s : string) : string :=
  match s with
  | EmptyString => EmptyString
  | String c t => String (lower_ascii c) (lower t)
  end.

(** [p in s] for strings: substring search. *)
Fixpoint contains (p s : string) : bool :=
  String.prefix p s ||
  match s with
  | EmptyString => false
  | String _ t => contains p t
  end.

(** [s[:n]] *)
Definition str_take (n : nat) (s : string) : string := substring 0 n s.

(** [next((x for x in xs if f(x)), None)]: the first element satisfying [f]. *)
Fixpoint first_match {A} (f : A -> bool) (xs : list A) : option A :=
  match xs with
  | [] => None
  | x :: r => if f x then Some x else first_match f r
  end.

(* ================================================================== *)
(** ** Page snapshots and the two detectors of anti_block.py *)

(** What the detectors read from the driver: [driver.current_url],
    [driver.title], [driver.page_source], and which XPath selectors match a
    displayed element ([find_elements] + [is_displayed]). *)
Record snapshot := mk_snapshot {
  current_url : string;
  title : string;
  page_source : string;
  displayed_xpaths : list string
}.

Module CaptchaDetector.

Definition CAPTCHA_XPATHS : list string := [
  "//img[contains(@src, 'captcha')]";
  "//form[contains(@action, 'captcha')]";
  "//*[contains(@id, 'captcha')]";
  "//iframe[contains(@src, 'recaptcha')]";
  "//div[contains(@class, 'g-recaptcha')]";
  "//div[@id='px-captcha']";
  "//input[@id='captchacharacters']";
  "//div[@class='a-box-inner a-padding-extra-large']//img"].

Definition STRONG_INDICATORS : list string := [
  "enter the characters you see below";
  "type the characters you see in this image";
  "sorry, we just need to make sure you're not a robot";
  "to continue, please type the characters below";
  "please enable cookies to continue";
  "access to this page has been denied"].

Definition CAPTCHA_URL_PATTERNS : list string := [
  "/captcha/"; "/validatecaptcha"; "/errors/validatecaptcha"; "captcha"].

Definition url_check (d : snapshot) : bool :=
  existsb (fun p => contains p (lower (current_url d))) CAPTCHA_URL_PATTERNS.

Definition title_check (d : snapshot) : bool :=
  contains "robot" (lower (title d)) || contains "captcha" (lower (title d)).

Definition element_check (d : snapshot) : bool :=
  existsb (fun x => existsb (String.eqb x) (displayed_xpaths d)) CAPTCHA_XPATHS.

Definition text_check (d : snapshot) : bool :=
  existsb (fun i => contains i (lower (page_source d))) STRONG_INDICATORS.

Definition small_page_check (d : snapshot) : bool :=
  let ps := lower (page_source d) in
  (String.length ps <? 10000)%nat &&
  (contains "captcha" ps || contains "robot check" ps).

(** [CaptchaDetector.is_captcha_present]: returns (is_captcha, captcha_type). *)
Definition is_captcha_present (d : snapshot) : bool * option string :=
  if url_check d then (true, Some "url")
  else if title_check d then (true, Some "title")
  else if element_check d then (true, Some "element")
  else if text_check d then (true, Some "text_pattern")
  else if small_page_check d then (true, Some "small_page")
  else (false, None).

(** [_silent_captcha_check]: the checks of [is_captcha_present] in the same
    order, returning only whether one fired. *)
Definition _silent_captcha_check (d : snapshot) : bool :=
  let current_url := lower (current_url d) in
  if existsb (fun pattern => contains pattern current_url) CAPTCHA_URL_PATTERNS then true
  else
  let title := lower (title d) in
  if contains "robot" title || contains "captcha" title then true
  else if existsb (fun xpath => existsb (String.eqb xpath) (displayed_xpaths d)) CAPTCHA_XPATHS
  then true
  else
  let page_source := lower (page_source d) in
  if existsb (fun indicator => contains indicator page_source) STRONG_INDICATORS then true
  else if (String.length page_source <? 10000)%nat then
    contains "captcha" page_source || contains "robot check" page_source
  else false.

End CaptchaDetector.

Module BlockDetector.

Definition BLOCK_INDICATORS : list string := [
  "access denied"; "blocked"; "forbidden"; "banned"; "too many requests";
  "rate limit"; "service unavailable"; "please try again later";
  "automated access"; "suspicious activity"].

(** [BlockDetector.is_blocked]: returns (is_blocked, block_reason). *)
Definition is_blocked (d : snapshot) : bool * option string :=
  let ps := lower (page_source d) in
  let t := lower (title d) in
  match first_match (fun i => contains i t) BLOCK_INDICATORS with
  | Some i => (true, Some ("Title contains: " ++ i))
  | None =>
    match first_match (fun i => contains i (str_take 5000 ps)) BLOCK_INDICATORS with
    | Some i => (true, Some ("Page contains: " ++ i))
    | None =>
      if (String.length ps <? 1000)%nat then (true, Some "Page suspiciously small")
      else (false, None)
    end
  end.

End BlockDetector.

(** The verdict of one navigation attempt in
    [ProtectedScraper.navigate_with_protection]. *)
Inductive verdict :=
| Clean
| Blocked (reason : option string)
| Captcha (kind : option string).

(** The order in which [navigate_with_protection] consults the detectors:
    [BlockDetector.is_blocked] first, then [CaptchaDetector.is_captcha_present]. *)
Definition protected_classify (d : snapshot) : verdict :=
  match BlockDetector.is_blocked d with
  | (true, r) => Blocked r
  | (false, _) =>
    match CaptchaDetector.is_captcha_present d with
    | (true, k) => Captcha k
    | (false, _) => Clean
    end
  end.

(** [scraper/detection.py: check_for_blocks], used by the review worker.
    [str(n)] for a length is [pretty n]. *)
Module Detection.

Definition _CAPTCHA_INDICATORS : list string := [
  "enter the characters you see below";
  "type the characters you see";
  "sorry, we just need to make sure you're not a robot"].

Definition check_for_blocks (url source : string) : bool * option string :=
  let u := lower url in
  if contains "/ap/signin" u || contains "/ap/register" u then
    (true, Some "Login redirect detected")
  else if contains "captcha" u then (true, Some "CAPTCHA URL detected")
  else
    let s := lower source in
    match first_match (fun i => contains i s) _CAPTCHA_INDICATORS with
    | Some i => (true, Some ("CAPTCHA detected: " ++ i))
    | None =>
      if (String.length s <? 5000)%nat then
        (true, Some ("Page suspiciously small: " ++ pretty (String.length s) ++ " bytes"))
      else (false, None)
    end.

End Detection.

(* ================================================================== *)
(** ** ProxyManager *)

Module ProxyManager.

Record t := mk {
  proxy_list : list string;
  current_index : nat;
  failed_proxies : gset string
}.

(** [ProxyManager(proxy_list)]: [proxy_list or []]. *)
Definition init (proxy_list : list string) : t := mk proxy_list 0 ∅.

(** [get_next_proxy].  [random.choice(available)] is
    [available[_randbelow(len(available))]]; the random draw is the argument
    [pick], reduced below [len(available)]. *)
Definition get_next_proxy (pick : nat) (pm : t) : option string * t :=
  match proxy_list pm with
  | [] => (None, pm)
  | _ =>
    let available := List.filter (fun p => bool_decide (p ∉ failed_proxies pm)) (proxy_list pm) in
    let '(available, pm') :=
      match available with
      | [] => (proxy_list pm, mk (proxy_list pm) (current_index pm) ∅)
      | _ => (available, pm)
      end in
    (nth_error available (pick mod length available), pm')
  end.

(** [mark_failed(proxy)]: [if proxy:] skips [None] and the empty string. *)
Definition mark_failed (proxy : option string) (pm : t) : t :=
  match proxy with
  | Some p => if String.eqb p "" then pm
              else mk (proxy_list pm) (current_index pm) ({[p]} ∪ failed_proxies pm)
  | None => pm
  end.

(** [get_chrome_proxy_arg(proxy) is not None]: [len(proxy.split(":")) >= 2]. *)
Fixpoint count_colons (s : string) : nat :=
  match s with
  | EmptyString => 0
  | String c t => (if Ascii.eqb c ":" then 1 else 0) + count_colons t
  end.

Definition has_chrome_proxy_arg (proxy : string) : bool :=
  negb (String.eqb proxy "") && (1 <=? count_colons proxy)%nat.

(** [s.split(sep)]: the first part and the parts after it. *)
Fixpoint split_parts (sep : ascii) (s : string) : string * list string :=
  match s with
  | EmptyString => ("", [])
  | String c t =>
    let '(p, ps) := split_parts sep t in
    if Ascii.eqb c sep then ("", p :: ps) else (String c p, ps)
  end.

Definition str_split (sep : ascii) (s : string) : list string :=
  let '(p, ps) := split_parts sep s in p :: ps.

(** [get_proxy_dict(proxy)]: the [{"http": ..., "https": ...}] dict as an
    association list. *)
Definition get_proxy_dict (proxy : option string) : option (list (string * string)) :=
  match proxy with
  | None => None
  | Some p =>
    if String.eqb p "" then None else
    match str_split ":" p with
    | [_; _] => Some [("http", "http://" ++ p); ("https", "http://" ++ p)]
    | [ip; port; user; password] =>
      Some [("http", "http://" ++ user ++ ":" ++ password ++ "@" ++ ip ++ ":" ++ port);
            ("https", "http://" ++ user ++ ":" ++ password ++ "@" ++ ip ++ ":" ++ port)]
    | _ => None
    end
  end.

(** [get_chrome_proxy_arg(proxy)] *)
Definition get_chrome_proxy_arg (proxy : option string) : option string :=
  match proxy with
  | None => None
  | Some p =>
    if String.eqb p "" then None else
    match str_split ":" p with
    | p0 :: p1 :: _ => Some ("--proxy-server=" ++ p0 ++ ":" ++ p1)
    | _ => None
    end
  end.

End ProxyManager.

(* ================================================================== *)
(** ** ThrottleManager *)

Module Throttle.

Local Open Scope Q_scope.

Record t := mk {
  min_delay : Q;
  max_delay : Q;
  burst_threshold : Z;
  request_count : Z;
  last_request_time : Q;
  backoff_multiplier : Q
}.

(** [ThrottleManager(min_delay=2.0, max_delay=5.0, burst_threshold=10)] *)
Definition init (min_delay max_delay : Q) (burst_threshold : Z) : t :=
  mk min_delay max_delay burst_threshold 0%Z 0 1.

Definition with_multiplier (th : t) (m : Q) : t :=
  mk (min_delay th) (max_delay th) (burst_threshold th) (request_count th)
     (last_request_time th) m.

(** Python's [min(a, b)] returns [a] unless [b < a]; [max(a, b)] returns
    [a] unless [b > a]. *)
Definition py_min (a b : Q) : Q := if Qlt_le_dec b a then b else a.
Definition py_max (a b : Q) : Q := if Qlt_le_dec a b then b else a.

(** The outcome of [wait()]: the time slept, or the [ZeroDivisionError] of
    [request_count % 0]. *)
Inductive wait_result := Slept (secs : Q) | ZeroDivisionError.

(** [wait()].  [u] is the draw of [random.uniform]'s [random()] in [0,1) and
    [now] the value of [time.time()] at the check. *)
Definition wait (u now : Q) (th : t) : wait_result * t :=
  let rc := (request_count th + 1)%Z in
  let th1 := mk (min_delay th) (max_delay th) (burst_threshold th) rc
                (last_request_time th) (backoff_multiplier th) in
  if Z.eqb (burst_threshold th) 0 then (ZeroDivisionError, th1)
  else
    let m := if Z.eqb (rc mod burst_threshold th)%Z 0
             then py_min (backoff_multiplier th * (3#2)) 3
             else backoff_multiplier th in
    let base_delay := min_delay th + (max_delay th - min_delay th) * u in
    let actual_delay := base_delay * m in
    let time_since_last := now - last_request_time th in
    let sleep_time := if Qlt_le_dec time_since_last actual_delay
                      then actual_delay - time_since_last else 0 in
    (Slept sleep_time,
     mk (min_delay th) (max_delay th) (burst_threshold th) rc (now + sleep_time) m).

(** [report_success()] *)
Definition report_success (th : t) : t :=
  if Qlt_le_dec 1 (backoff_multiplier th)
  then with_multiplier th (py_max 1 (backoff_multiplier th * (9#10)))
  else th.

(** [report_error(error_type)] *)
Definition report_error (error_type : string) (th : t) : t :=
  if String.eqb error_type "rate_limit"
  then with_multiplier th (py_min (backoff_multiplier th * 2) 5)
  else if String.eqb error_type "block"
  then with_multiplier th (py_min (backoff_multiplier th * 3) 10)
  else th.

(** [reset()] *)
Definition reset (th : t) : t :=
  mk (min_delay th) (max_delay th) (burst_threshold th) 0%Z (last_request_time th) 1.

(** A call made on a ThrottleManager, with the random draw and clock reading
    a [wait()] consumes. *)
Inductive op :=
| OpWait (u now : Q)
| OpSuccess
| OpError (kind : string)
| OpReset.

Definition step (o : op) (th : t) : t :=
  match o with
  | OpWait u now => snd (wait u now th)
  | OpSuccess => report_success th
  | OpError k => report_error k th
  | OpReset => reset th
  end.

(** The state after a sequence of calls; a [wait()] that raised still
    counted the request. *)
Definition run (ops : list op) (th : t) : t := fold_left (fun s o => step o s) ops th.

End Throttle.

(* ================================================================== *)
(** ** ProtectedScraper *)

Module Protected.

Inductive event :=
| EvAttempt (attempt : nat)
| EvStartDriver (proxy_used : option string)
| EvRotate
| EvReportError (kind : string)
| EvReportSuccess.

(** The fields of a [ProtectedScraper] the navigation touches; [driver] says
    whether a live driver exists, [log] records the calls made (newest first).
    Fingerprint handling in [start_driver] does not affect navigation and is
    left out.  Launching Chrome is assumed to succeed. *)
Record t := mk {
  proxy_manager : ProxyManager.t;
  throttle_manager : Throttle.t;
  driver : bool;
  current_proxy : option string;
  max_retries : Z;
  log : list event
}.

(** [ProtectedScraper(proxy_list)] *)
Definition init (proxy_list : list string) : t :=
  mk (ProxyManager.init proxy_list) (Throttle.init 2 5 10) false None 3 [].

Definition set_throttle (th : Throttle.t) (s : t) : t :=
  mk (proxy_manager s) th (driver s) (current_proxy s) (max_retries s) (log s).

Definition emit (e : event) (s : t) : t :=
  mk (proxy_manager s) (throttle_manager s) (driver s) (current_proxy s)
     (max_retries s) (e :: log s).

(** What the world does during one attempt: the random draw and clock value
    [throttle_manager.wait()] reads, whether loading the page raises
    (timeout, WebDriver error), the page loaded, whether a manual CAPTCHA
    solve succeeds within its timeout, and the proxy draw of the driver
    (re)started during the attempt. *)
Record attempt_env := mk_env {
  ae_u : Q;
  ae_now : Q;
  ae_nav_error : bool;
  ae_page : snapshot;
  ae_solved : bool;
  ae_pick : nat
}.

(** [quit_driver] + [create_protected_driver(proxy_manager, use_proxy=True)]:
    the proxy is used when [get_next_proxy] returns one and
    [get_chrome_proxy_arg] accepts it. *)
Definition start_driver (pick : nat) (s : t) : t :=
  let '(proxy, pm) := ProxyManager.get_next_proxy pick (proxy_manager s) in
  let used := match proxy with
              | Some p => if ProxyManager.has_chrome_proxy_arg p then Some p else None
              | None => None
              end in
  mk pm (throttle_manager s) true used (max_retries s) (EvStartDriver used :: log s).

(** [rotate_ip()] *)
Definition rotate_ip (pick : nat) (s : t) : t :=
  let s := emit EvRotate s in
  let pm := match current_proxy s with
            | Some p => if String.eqb p "" then proxy_manager s
                        else ProxyManager.mark_failed (Some p) (proxy_manager s)
            | None => proxy_manager s
            end in
  start_driver pick (mk pm (throttle_manager s) false (current_proxy s) (max_retries s) (log s)).

Definition report_error (kind : string) (s : t) : t :=
  emit (EvReportError kind) (set_throttle (Throttle.report_error kind (throttle_manager s)) s).

Definition report_success (s : t) : t :=
  emit EvReportSuccess (set_throttle (Throttle.report_success (throttle_manager s)) s).

(** How one iteration of the [for attempt in range(retries)] loop ends. *)
Inductive attempt_result := Succeeded | NextAttempt.

(** The body of the loop, [try] and [except] included. *)
Definition attempt (retries : Z) (a : nat) (e : attempt_env) (s : t) : attempt_result * t :=
  let s := emit (EvAttempt a) s in
  let except (s : t) :=
    let s := report_error "generic" s in
    if (Z.of_nat a <? retries - 1)%Z then (NextAttempt, rotate_ip (ae_pick e) s)
    else (NextAttempt, s) in
  match Throttle.wait (ae_u e) (ae_now e) (throttle_manager s) with
  | (Throttle.ZeroDivisionError, th) => except (set_throttle th s)
  | (Throttle.Slept _, th) =>
    let s := set_throttle th s in
    let s := if driver s then s else start_driver (ae_pick e) s in
    if ae_nav_error e then except s
    else
      match BlockDetector.is_blocked (ae_page e) with
      | (true, _) =>
        let s := report_error "block" s in
        (NextAttempt, rotate_ip (ae_pick e) s)
      | (false, _) =>
        let captcha := fst (CaptchaDetector.is_captcha_present (ae_page e)) in
        if captcha && negb (ae_solved e) then (NextAttempt, rotate_ip (ae_pick e) s)
        else (Succeeded, report_success s)
      end
  end.

Fixpoint attempts (fuel : nat) (retries : Z) (a : nat) (env : nat -> attempt_env) (s : t)
  : bool * t :=
  match fuel with
  | O => (false, s)
  | S f =>
    match attempt retries a (env a) s with
    | (Succeeded, s') => (true, s')
    | (NextAttempt, s') => attempts f retries (S a) env s'
    end
  end.

(** [retries = max_retries or self.max_retries]: [None] and [0] fall back. *)
Definition effective_retries (max_retries_arg : option Z) (s : t) : Z :=
  match max_retries_arg with
  | None => max_retries s
  | Some 0%Z => max_retries s
  | Some n => n
  end.

(** [navigate_with_protection(url, max_retries)]; the URL only reaches the
    driver, whose response is [env]. *)
Definition navigate_with_protection (url : string) (max_retries_arg : option Z)
    (env : nat -> attempt_env) (s : t) : bool * t :=
  let retries := effective_retries max_retries_arg s in
  attempts (Z.to_nat retries) retries 0 env s.

Definition count_rotations (l : list event) : nat :=
  length (List.filter (fun e => match e with EvRotate => true | _ => false end) l).

Definition count_attempts (l : list event) : nat :=
  length (List.filter (fun e => match e with EvAttempt _ => true | _ => false end) l).

End Protected.

(* ================================================================== *)
(** ** BrowserFingerprint *)

Module Fingerprint.

Local Open Scope Q_scope.

Definition SCREEN_RESOLUTIONS : list (Z * Z) := [
  (1920, 1080); (1366, 768); (1536, 864); (1440, 900);
  (1280, 720); (1600, 900); (2560, 1440); (1280, 800);
  (1680, 1050); (1360, 768); (1920, 1200); (2560, 1080)]%Z.

Definition USER_AGENTS : list string := [
  "Mozilla/5.0 (Windows NT 10.0; Win64; x64) AppleWebKit/537.36 (KHTML, like Gecko) Chrome/121.0.0.0 Safari/537.36";
  "Mozilla/5.0 (Windows NT 10.0; Win64; x64) AppleWebKit/537.36 (KHTML, like Gecko) Chrome/120.0.0.0 Safari/537.36";
  "Mozilla/5.0 (Windows NT 10.0; Win64; x64) AppleWebKit/537.36 (KHTML, like Gecko) Chrome/119.0.0.0 Safari/537.36";
  "Mozilla/5.0 (Windows NT 10.0; Win64; x64) AppleWebKit/537.36 (KHTML, like Gecko) Chrome/122.0.0.0 Safari/537.36";
  "Mozilla/5.0 (Windows NT 10.0; Win64; x64) AppleWebKit/537.36 (KHTML, like Gecko) Chrome/118.0.0.0 Safari/537.36";
  "Mozilla/5.0 (Windows NT 11.0; Win64; x64) AppleWebKit/537.36 (KHTML, like Gecko) Chrome/121.0.0.0 Safari/537.36";
  "Mozilla/5.0 (Windows NT 11.0; Win64; x64) AppleWebKit/537.36 (KHTML, like Gecko) Chrome/120.0.0.0 Safari/537.36"].

Definition LANGUAGES : list (list string) := [
  ["en-US"; "en"]; ["en-GB"; "en"]; ["en-IN"; "en"]].

(** [{"name": ..., "offset": ...}] *)
Definition TIMEZONES : list (string * Z) := [
  ("Asia/Kolkata", (-330)%Z); ("America/New_York", 300%Z);
  ("America/Los_Angeles", 480%Z); ("Europe/London", 0%Z)].

(** [{"vendor": ..., "renderer": ...}] *)
Definition WEBGL_CONFIGS : list (string * string) := [
  ("Google Inc. (NVIDIA)", "ANGLE (NVIDIA, NVIDIA GeForce GTX 1650 Direct3D11 vs_5_0 ps_5_0, D3D11)");
  ("Google Inc. (NVIDIA)", "ANGLE (NVIDIA, NVIDIA GeForce RTX 3060 Direct3D11 vs_5_0 ps_5_0, D3D11)");
  ("Google Inc. (Intel)", "ANGLE (Intel, Intel(R) UHD Graphics 630 Direct3D11 vs_5_0 ps_5_0, D3D11)");
  ("Google Inc. (AMD)", "ANGLE (AMD, AMD Radeon RX 580 Series Direct3D11 vs_5_0 ps_5_0, D3D11)");
  ("Google Inc. (Intel)", "ANGLE (Intel, Intel(R) Iris(R) Xe Graphics Direct3D11 vs_5_0 ps_5_0, D3D11)");
  ("Google Inc. (NVIDIA)", "ANGLE (NVIDIA, NVIDIA GeForce RTX 2070 Direct3D11 vs_5_0 ps_5_0, D3D11)")].

Definition HARDWARE_CONCURRENCY : list Z := [4; 6; 8; 12; 16]%Z.
Definition DEVICE_MEMORY : list Z := [4; 8; 16; 32]%Z.
Definition PLATFORMS : list string := ["Win32"].

Record fingerprint := mk {
  seed : Z;
  screen_resolution : Z * Z;
  screen_width : Z;
  screen_height : Z;
  color_depth : Z;
  pixel_ratio : Q;
  window_width : Z;
  window_height : Z;
  user_agent : string;
  languages : list string;
  timezone : string * Z;
  webgl : string * string;
  hardware_concurrency : Z;
  device_memory : Z;
  platform : string;
  canvas_noise : Q;
  audio_noise : Q;
  canvas_hash : string;
  webgl_hash : string;
  audio_hash : string
}.

Section Generation.

(** The Mersenne Twister behind [random.Random]: seeding, [_randbelow(n)]
    and [random()], each as a function of the generator state. *)
Variable rng : Type.
Variable Random : Z -> rng.
Variable _randbelow : nat -> rng -> nat * rng.
Variable random : rng -> Q * rng.
(** [hashlib.md5(s.encode()).hexdigest()] *)
Variable md5_hexdigest : string -> string.

(** [Random.choice(seq)] is [seq[self._randbelow(len(seq))]]; every catalog
    is non-empty and [_randbelow(n) < n], so the default [d] is never read. *)
Definition choice {A} (d : A) (seq : list A) (g : rng) : A * rng :=
  let '(i, g) := _randbelow (length seq) g in (nth i seq d, g).

(** [Random.randint(a, b)] is [a + self._randbelow(b - a + 1)]. *)
Definition randint (a b : Z) (g : rng) : Z * rng :=
  let '(i, g) := _randbelow (Z.to_nat (b - a + 1)) g in ((a + Z.of_nat i)%Z, g).

(** [Random.uniform(a, b)] is [a + (b - a) * self.random()]. *)
Definition uniform (a b : Q) (g : rng) : Q * rng :=
  let '(r, g) := random g in (a + (b - a) * r, g).

(** [_generate_ids]: [base = f"{self.seed}-{self.user_agent}-{self.screen_width}"]. *)
Definition _generate_ids (seed : Z) (user_agent : string) (screen_width : Z)
  : string * string * string :=
  let base := pretty seed ++ "-" ++ user_agent ++ "-" ++ pretty screen_width in
  (substring 0 16 (md5_hexdigest ("canvas-" ++ base)),
   substring 0 16 (md5_hexdigest ("webgl-" ++ base)),
   substring 0 16 (md5_hexdigest ("audio-" ++ base))).

(** [_generate_fingerprint], drawing from [self._rng] in source order. *)
Definition _generate_fingerprint (seed : Z) (g : rng) : fingerprint :=
  let '(res, g) := choice (1920, 1080)%Z SCREEN_RESOLUTIONS g in
  let screen_width := fst res in
  let screen_height := snd res in
  let '(color_depth, g) := choice 24%Z [24; 32]%Z g in
  let '(pixel_ratio, g) := choice 1 [1; 5#4; 3#2; 2] g in
  let '(dw, g) := randint 0 100 g in
  let window_width := (screen_width - dw)%Z in
  let '(dh, g) := randint 60 150 g in
  let window_height := (screen_height - dh)%Z in
  let '(user_agent, g) := choice "" USER_AGENTS g in
  let '(languages, g) := choice [] LANGUAGES g in
  let '(timezone, g) := choice ("", 0%Z) TIMEZONES g in
  let '(webgl, g) := choice ("", "") WEBGL_CONFIGS g in
  let '(hardware_concurrency, g) := choice 4%Z HARDWARE_CONCURRENCY g in
  let '(device_memory, g) := choice 4%Z DEVICE_MEMORY g in
  let '(platform, g) := choice "" PLATFORMS g in
  let '(canvas_noise, g) := uniform (-1#10000) (1#10000) g in
  let '(audio_noise, _) := uniform (-1#10000) (1#10000) g in
  let '(hashes, audio_hash) := _generate_ids seed user_agent screen_width in
  let '(canvas_hash, webgl_hash) := hashes in
  mk seed res screen_width screen_height color_depth pixel_ratio window_width
     window_height user_agent languages timezone webgl hardware_concurrency
     device_memory platform canvas_noise audio_noise canvas_hash webgl_hash audio_hash.

(** [BrowserFingerprint(seed)]: without a seed, the seed is
    [int(datetime.now().timestamp() * 1000)], here [now_ms]. *)
Definition BrowserFingerprint (now_ms : Z) (seed : option Z) : fingerprint :=
  let s := match seed with Some s => s | None => now_ms end in
  _generate_fingerprint s (Random s).

End Generation.


End Fingerprint.

(* ================================================================== *)
(** ** AmazonHTMLScraper (scraper/worker.py) *)

Module Worker.

(** A DOM element as the worker uses it: its [href] attribute, whether the
    script-driven click and the native click go through, and where a
    successful click navigates ([None]: the click does nothing). *)
Record element := mk_el {
  el_href : option string;
  el_script_click_ok : bool;
  el_native_click_ok : bool;
  el_target : option string
}.

(** What a URL serves: title, page source, the "See more reviews" link and
    the "Next page" link as [human_scroll] and the fallback selectors find
    them. *)
Record page := mk_page {
  pg_title : string;
  pg_source : string;
  pg_see_more : option element;
  pg_next : option element
}.

(** A simulated browser session: the page behind every URL and the URLs
    whose load times out. *)
Record site := mk_site {
  site_page : string -> page;
  site_timeout : string -> bool
}.

Inductive event :=
| EvGet (url : string)
| EvWait (reason : string)
| EvSleep (secs : nat)
| EvClick
| EvSave (label : string).

(** [driver.current_url], the blocks appended to the output file (label,
    URL, HTML; newest first), the counters, and the trace of driver calls and
    waits (newest first). *)
Record state := mk_state {
  cur_url : string;
  saved : list (string * string * string);
  total_pages : nat;
  total_bytes : nat;
  trace : list event
}.

Definition emit (e : event) (s : state) : state :=
  mk_state (cur_url s) (saved s) (total_pages s) (total_bytes s) (e :: trace s).

Inductive outcome (A : Type) := Ok (a : A) | Raised (exn : string).
Arguments Ok {A} a.
Arguments Raised {A} exn.

(** Driver calls thread the state and may raise. *)
Definition M (A : Type) := state -> outcome A * state.

Definition ret {A} (a : A) : M A := fun s => (Ok a, s).
Definition bind {A B} (m : M A) (k : A -> M B) : M B := fun s =>
  match m s with
  | (Ok a, s') => k a s'
  | (Raised e, s') => (Raised e, s')
  end.

Notation "x <- m ;; k" := (bind m (fun x => k))
  (at level 100, m at next level, right associativity).

Definition MAX_REVIEW_PAGES : nat := 500.

Section WithSite.

Variable web : site.

Definition cur_page (s : state) : page := site_page web (cur_url s).

Definition tick (e : event) : M unit := fun s => (Ok tt, emit e s).

(** [random_wait(min, max, reason)] and [time.sleep(n)] *)
Definition random_wait (reason : string) : M unit := tick (EvWait reason).
Definition sleep (secs : nat) : M unit := tick (EvSleep secs).

(** [driver.get(url)] *)
Definition get (u : string) : M unit := fun s =>
  if site_timeout web u then (Raised "TimeoutException", s)
  else (Ok tt, mk_state u (saved s) (total_pages s) (total_bytes s) (EvGet u :: trace s)).

Definition current_url : M string := fun s => (Ok (cur_url s), s).

(** [check_for_blocks(self.driver)] *)
Definition check_for_blocks : M (bool * option string) := fun s =>
  (Ok (Detection.check_for_blocks (cur_url s) (pg_source (cur_page s))), s).

(** [save_html_to_single_file(self.driver, self.output_file, label)] followed
    by the counter updates [total_pages += 1; total_bytes += size]. *)
Definition save_page (label : string) : M unit := fun s =>
  let html := pg_source (cur_page s) in
  (Ok tt, mk_state (cur_url s) ((label, cur_url s, html) :: saved s)
                   (S (total_pages s)) (total_bytes s + String.length html)
                   (EvSave label :: trace s)).

(** [human_scroll(target_xpath=SEE_MORE_REVIEWS_XPATH)] or the CSS lookup. *)
Definition find_see_more : M (option element) := fun s =>
  (Ok (pg_see_more (cur_page s)), s).

(** [human_scroll(target_xpath=NEXT_PAGE_XPATH)] or
    [_find_next_page_button()]. *)
Definition find_next : M (option element) := fun s =>
  (Ok (pg_next (cur_page s)), s).

(** The URL test of [_is_blocked_or_redirected]. *)
Definition blocked_or_redirected_url (u : string) : bool :=
  contains "/errors/validateCaptcha" u || contains "captcha" (lower u)
  || contains "/ap/signin" u.

(** [_is_blocked_or_redirected] *)
Definition _is_blocked_or_redirected : M bool := fun s =>
  (Ok (blocked_or_redirected_url (cur_url s)), s).

(** The test of [_looks_like_last_page] on a title and a page source. *)
Definition last_page_heuristic (title source : string) : bool :=
  let src := lower source in
  contains "there are no customer reviews" src || contains "no reviews" (str_take 5000 src)
  || contains "page not found" (lower title) || contains "404" (lower title).

(** [_looks_like_last_page] *)
Definition _looks_like_last_page : M bool := fun s =>
  (Ok (last_page_heuristic (pg_title (cur_page s)) (pg_source (cur_page s))), s).

(** A click that went through: the browser follows the element's target. *)
Definition follow_click (el : element) : M unit := fun s =>
  match el_target el with
  | Some u => (Ok tt, mk_state u (saved s) (total_pages s) (total_bytes s) (trace s))
  | None => (Ok tt, s)
  end.

(** [_click_next_page(element)]: returns the pre-click URL, or [None] when no
    click and no [href] navigation is possible. *)
Definition _click_next_page (el : element) : M (option string) :=
  _ <- sleep 1 ;;
  _ <- random_wait "before clicking Next" ;;
  pre_click_url <- current_url ;;
  _ <- tick EvClick ;;
  if el_script_click_ok el || el_native_click_ok el then
    _ <- follow_click el ;; ret (Some pre_click_url)
  else
    match el_href el with
    | Some h => if String.eqb h "" then ret None
                else _ <- get h ;; ret (Some pre_click_url)
    | None => ret None
    end.

(** The [while page_number < MAX_REVIEW_PAGES] loop; [fuel] bounds the
    iterations, each of which increases [page_number]. *)
Fixpoint pagination_loop (fuel : nat) (page_number : nat) : M unit :=
  match fuel with
  | O => ret tt
  | S fuel' =>
    if (page_number <? MAX_REVIEW_PAGES)%nat then
      next_el <- find_next ;;
      match next_el with
      | None => ret tt
      | Some el =>
        blocked <- _is_blocked_or_redirected ;;
        if blocked then ret tt else
        next_href <- _click_next_page el ;;
        match next_href with
        | None => ret tt
        | Some next_href =>
          _ <- random_wait "page load" ;;
          u <- current_url ;;
          stop <- (if String.eqb u next_href then
                     _ <- sleep 3 ;;
                     u' <- current_url ;;
                     ret (String.eqb u' next_href)
                   else ret false) ;;
          if stop then ret tt else
          last <- _looks_like_last_page ;;
          if last then ret tt else
          _ <- save_page ("reviews_page_" ++ pretty (S page_number)) ;;
          pagination_loop fuel' (S page_number)
        end
      end
    else ret tt
  end.

(** [scrape_product_to_reviews(product_url)] *)
Definition scrape_product_to_reviews (product_url : string) : M bool :=
  fun s0 =>
  match get product_url s0 with
  | (Raised "TimeoutException", s) => (Ok false, s)
  | (Raised e, s) => (Raised e, s)
  | (Ok _, s) =>
   (_ <- random_wait "page load" ;;
    b <- check_for_blocks ;;
    if fst b then ret false else
    _ <- save_page "product_page" ;;
    see_more <- find_see_more ;;
    match see_more with
    | None => ret false
    | Some el =>
      _ <- random_wait "before navigation" ;;
      match el_href el with
      | None => fun s => (Raised "AttributeError", s)
      | Some href =>
        let href := if String.prefix "/" href then "https://www.amazon.in" ++ href else href in
        _ <- get href ;;
        _ <- random_wait "reviews page load" ;;
        b <- check_for_blocks ;;
        if fst b then ret false else
        _ <- sleep 1 ;;
        _ <- save_page "reviews_page_1" ;;
        _ <- pagination_loop MAX_REVIEW_PAGES 1 ;;
        ret true
      end
    end) s
  end.

End WithSite.

End Worker.

(* ================================================================== *)
(** ** The raw-page file: extractor.py (writer) and extract/loader.py *)

Module Loader.

Local Open Scope nat_scope.
Local Open Scope list_scope.

Definition chars := list ascii.

Definition nl : ascii := Ascii.ascii_of_nat 10.

Definition cs (s : string) : chars := list_ascii_of_string s.

(** [str.isspace] on ASCII, which is also what [\s] matches:
    \t \n \v \f \r, the separators 0x1c-0x1f, and the space. *)
Definition is_space (c : ascii) : bool :=
  let n := nat_of_ascii c in
  ((9 <=? n) && (n <=? 13)) || ((28 <=? n) && (n <=? 31)) || (n =? 32).

Fixpoint lstrip (s : chars) : chars :=
  match s with
  | c :: t => if is_space c then lstrip t else s
  | [] => []
  end.

(** [s.strip()] *)
Definition strip (s : chars) : chars := rev (lstrip (rev (lstrip s))).

(** [s[a:b]] for [0 <= a <= b]. *)
Definition slice (a b : nat) (s : chars) : chars := firstn (b - a) (skipn a s).

(** *** The regular expression [PAGE_HEADER] *)

(** The pieces of
    [={80}\nPAGE:\s*(.+?)\nURL:\s*(.+?)\nTIMESTAMP:\s*(.+?)\nSIZE:\s*(.+?)\n={80}]:
    literal text, a greedy [\s*], and a lazy group [(.+?)]. *)
Inductive piece := Lit (l : chars) | Ws | Cap.

Definition rule80 : chars := repeat "="%char 80.

Definition PAGE_HEADER : list piece := [
  Lit rule80; Lit (nl :: cs "PAGE:"); Ws; Cap;
  Lit (nl :: cs "URL:"); Ws; Cap;
  Lit (nl :: cs "TIMESTAMP:"); Ws; Cap;
  Lit (nl :: cs "SIZE:"); Ws; Cap;
  Lit [nl]; Lit rule80].

Fixpoint strip_prefix (l s : chars) : option chars :=
  match l, s with
  | [], _ => Some s
  | a :: l', b :: s' => if Ascii.eqb a b then strip_prefix l' s' else None
  | _ :: _, [] => None
  end.

Section Backtracking.
Context {X : Type}.

(** Greedy [\s*]: the longest run of spaces first, then shorter ones. *)
Fixpoint ws_star (k : chars -> option X) (s : chars) : option X :=
  match s with
  | c :: t =>
    if is_space c then
      match ws_star k t with
      | Some x => Some x
      | None => k s
      end
    else k s
  | [] => k []
  end.

(** Lazy [(.+?)]: the shortest non-empty run of non-newline characters
    first; [acc] holds the characters taken so far, reversed. *)
Fixpoint lazy_group (k : chars -> chars -> option X) (acc : chars) (s : chars) : option X :=
  match s with
  | c :: t =>
    if Ascii.eqb c nl then None
    else
      match k (rev (c :: acc)) t with
      | Some x => Some x
      | None => lazy_group k (c :: acc) t
      end
  | [] => None
  end.

End Backtracking.

(** Backtracking match of a pattern at the start of [s]: the groups and the
    text after the match. *)
Fixpoint match_at (p : list piece) (caps : list chars) (s : chars)
  : option (list chars * chars) :=
  match p with
  | [] => Some (caps, s)
  | Lit l :: p' =>
    match strip_prefix l s with
    | Some s' => match_at p' caps s'
    | None => None
    end
  | Ws :: p' => ws_star (match_at p' caps) s
  | Cap :: p' => lazy_group (fun c rest => match_at p' (caps ++ [c]) rest) [] s
  end.

(** [PAGE_HEADER.finditer(raw)]: (start, end, groups) of each match, scanning
    left to right and resuming after each match; [skip] counts the positions
    still inside the previous match.  [PAGE_HEADER] never matches the empty
    string, so the end position need not be tried. *)
Fixpoint finditer (s : chars) (pos skip : nat) : list (nat * nat * list chars) :=
  match s with
  | [] => []
  | _ :: t =>
    match skip with
    | S k => finditer t (S pos) k
    | O =>
      match match_at PAGE_HEADER [] s with
      | Some (caps, rest) =>
        let len := length s - length rest in
        (pos, pos + len, caps) :: finditer t (S pos) (len - 1)
      | None => finditer t (S pos) 0
      end
    end
  end.

(** A page dict [{label, url, timestamp, soup}]; the soup is given by the
    HTML text it parses. *)
Record page := mk_page { label : chars; url : chars; timestamp : chars; soup : chars }.

Definition group (caps : list chars) (i : nat) : chars := nth i caps [].

Fixpoint pages_of (raw : chars) (seps : list (nat * nat * list chars)) : list page :=
  match seps with
  | [] => []
  | (_, start, caps) :: rest =>
    let stop := match rest with
                | (st', _, _) :: _ => st'
                | [] => length raw
                end in
    mk_page (strip (group caps 0)) (strip (group caps 1)) (strip (group caps 2))
            (strip (slice start stop raw)) :: pages_of raw rest
  end.

(** [split_pages(raw_content)] *)
Definition split_pages (raw : chars) : list page :=
  match finditer raw 0 0 with
  | [] => [mk_page (cs "full_file") [] [] raw]
  | seps => pages_of raw seps
  end.

(** *** The writer: [save_html_to_single_file] *)

Definition digit (k : nat) : ascii :=
  nth k ["0"; "1"; "2"; "3"; "4"; "5"; "6"; "7"; "8"; "9"]%char "0"%char.

(** Decimal digits, least significant first. *)
Fixpoint digits_rev (fuel n : nat) : chars :=
  match fuel with
  | O => []
  | S f => digit (n mod 10) :: (if n / 10 =? 0 then [] else digits_rev f (n / 10))
  end.

(** Insert a comma before every third digit from the right (reversed). *)
Fixpoint group3 (r : chars) (i : nat) : chars :=
  match r with
  | [] => []
  | c :: t =>
    c :: match t with
         | [] => []
         | _ => if (S i mod 3 =? 0) then ","%char :: group3 t (S i) else group3 t (S i)
         end
  end.

(** [f"{n:,}"] *)
Definition thousands (n : nat) : chars := rev (group3 (digits_rev (S n) n) 0).

(** The metadata separator written before each page. *)
Definition separator (page_label current_url timestamp html : chars) : chars :=
  ([nl; nl] ++ rule80 ++ [nl] ++
  cs "PAGE: " ++ page_label ++ [nl] ++
  cs "URL: " ++ current_url ++ [nl] ++
  cs "TIMESTAMP: " ++ timestamp ++ [nl] ++
  cs "SIZE: " ++ thousands (length html) ++ cs " bytes" ++ [nl] ++
  rule80 ++ [nl; nl])%list.

(** Appending one page to the output file. *)
Definition save_html_to_single_file (file page_label current_url timestamp html : chars)
  : chars :=
  (file ++ separator page_label current_url timestamp html ++ html)%list.

(** The file after appending each (label, URL, timestamp, HTML) in order. *)
Definition write_pages (file : chars) (ps : list (chars * chars * chars * chars)) : chars :=
  fold_left (fun f '(l, u, t, h) => save_html_to_single_file f l u t h) ps file.

End Loader.

(* ================================================================== *)
(** * Scenarios and predicates used by the theorems *)

(** ** The detectors *)

(** A page none of whose CAPTCHA or block indicators fires. *)
Definition indicator_free (d : snapshot) : Prop :=
  CaptchaDetector.url_check d = false /\ CaptchaDetector.title_check d = false /\
  CaptchaDetector.element_check d = false /\ CaptchaDetector.text_check d = false /\
  CaptchaDetector.small_page_check d = false /\
  (forall i, In i BlockDetector.BLOCK_INDICATORS ->
     contains i (lower (title d)) = false /\
     contains i (str_take 5000 (lower (page_source d))) = false).

(** A 3,000-character page of plain text at an ordinary product URL. *)
Definition plain_3000 : string := String.concat "" (repeat "abcdefghij" 300).

Definition plain_snapshot : snapshot :=
  mk_snapshot "https://www.amazon.in/dp/B0TEST0000" "Product" plain_3000 [].

(** A CAPTCHA URL whose page title carries a generic block phrase. *)
Definition captcha_url_block_title : snapshot :=
  mk_snapshot "https://www.amazon.in/errors/validateCaptcha" "Access Denied"
              (String.concat "" (repeat "abcdefghij" 200)) [].

(** The attempt every navigation meets in C1: the page comes back with an
    "Access Denied" title. *)
Definition blocked_env (k : nat) : Protected.attempt_env :=
  Protected.mk_env 0 (inject_Z (Z.of_nat k)) false
    (mk_snapshot "https://www.amazon.in/dp/B0TEST0000" "Access Denied" plain_3000 [])
    false k.

Definition C1_pool : list string := ["10.0.0.1:8080"; "10.0.0.2:8080"; "10.0.0.3:8080"].

(** ** The review worker *)

(** A "Next page" click on the page at [u] that brings the browser to [v]. *)
Definition advances (web : Worker.site) (u v : string) : Prop :=
  exists el, Worker.pg_next (Worker.site_page web u) = Some el /\
   ((Worker.el_script_click_ok el || Worker.el_native_click_ok el = true /\
     Worker.el_target el = Some v) \/
    (Worker.el_script_click_ok el || Worker.el_native_click_ok el = false /\
     Worker.el_href el = Some v /\ v <> "" /\ Worker.site_timeout web v = false)).

(** A product page and four reviews pages at amazon.in URLs. *)
Definition review_html : string := String.concat "" (repeat "abcdefghij" 600).

Definition C7_product : string := "https://www.amazon.in/dp/B0TEST0000".
Definition C7_reviews (n : nat) : string :=
  "https://www.amazon.in/product-reviews/B0TEST0000?pageNumber=" ++ pretty n.

Definition next_link (u : string) : option Worker.element :=
  Some (Worker.mk_el (Some u) true true (Some u)).

Definition C7_pages (u : string) : Worker.page :=
  if String.eqb u C7_product then
    Worker.mk_page "Product" review_html
      (Some (Worker.mk_el (Some "/product-reviews/B0TEST0000?pageNumber=1") true true None)) None
  else if String.eqb u (C7_reviews 1) then Worker.mk_page "Reviews" review_html None (next_link (C7_reviews 2))
  else if String.eqb u (C7_reviews 2) then Worker.mk_page "Reviews" review_html None (next_link (C7_reviews 3))
  else if String.eqb u (C7_reviews 3) then Worker.mk_page "Reviews" review_html None (next_link (C7_reviews 4))
  else Worker.mk_page "Reviews" review_html None None.

Definition C7_site : Worker.site := Worker.mk_site C7_pages (fun _ => false).

Definition C7_start : Worker.state := Worker.mk_state "about:blank" [] 0 0 [].

(** A "Next page" element on the page at [u] whose click leaves the browser
    at [u]: a click that goes through has no target or targets [u] itself;
    when both clicks fail, the [href] fallback is absent, empty, or [u]
    (loaded without timeout). *)
Definition noop_click (web : Worker.site) (u : string) (el : Worker.element) : Prop :=
  if Worker.el_script_click_ok el || Worker.el_native_click_ok el
  then Worker.el_target el = None \/ Worker.el_target el = Some u
  else match Worker.el_href el with
       | Some h => h = "" \/ (h = u /\ Worker.site_timeout web u = false)
       | None => True
       end.

Definition count_clicks (l : list Worker.event) : nat :=
  length (List.filter (fun e => match e with Worker.EvClick => true | _ => false end) l).

Definition count_confirmation_waits (l : list Worker.event) : nat :=
  length (List.filter (fun e => match e with Worker.EvSleep 3 => true | _ => false end) l).

(** A session whose every "Next page" click is a no-op. *)
Definition C8_page : Worker.page :=
  Worker.mk_page "Reviews" review_html None
    (Some (Worker.mk_el (Some (C7_reviews 2)) true true None)).

Definition C8_site : Worker.site := Worker.mk_site (fun _ => C8_page) (fun _ => false).

Definition C8_start : Worker.state := Worker.mk_state (C7_reviews 1) [] 0 0 [].

(** Every block saved as reviews_page_n with n >= 2 holds a page on which
    the last-page heuristic does not fire. *)
Definition saved_reviews_ok (web : Worker.site) (l : list (string * string * string)) : Prop :=
  forall (n : nat) (u h : string),
    In ("reviews_page_" ++ pretty n, u, h) l -> (2 <= n)%nat ->
    Worker.last_page_heuristic (Worker.pg_title (Worker.site_page web u)) h = false.

(** A session whose reviews page 3 says "There are no customer reviews". *)
Definition C10_pages (u : string) : Worker.page :=
  if String.eqb u (C7_reviews 3) then
    Worker.mk_page "Reviews" "<p>There are no customer reviews yet.</p>" None
      (next_link (C7_reviews 4))
  else C7_pages u.

Definition C10_site : Worker.site := Worker.mk_site C10_pages (fun _ => false).

(** ** The page file *)

Module LoaderSpec.
Import Loader.
Local Open Scope nat_scope.
Local Open Scope list_scope.

(** Whether a run of 80 '=' starts somewhere in [s]. *)
Fixpoint has_rule (s : chars) : bool :=
  match s with
  | [] => false
  | _ :: t => match strip_prefix rule80 s with
              | Some _ => true
              | None => has_rule t
              end
  end.

(** A metadata value the header regex gives back: non-empty, without a
    newline, and not starting with whitespace. *)
Definition field_ok (f : chars) : bool :=
  match f with
  | [] => false
  | c :: _ => negb (is_space c)
  end && forallb (fun c => negb (Ascii.eqb c nl)) f.

(** The SIZE value written for an HTML text. *)
Definition size_field (html : chars) : chars := thousands (length html) ++ cs " bytes".

(** The text [PAGE_HEADER] matches in a separator: from the first rule to
    the second. *)
Definition header (l u t html : chars) : chars :=
  rule80 ++ nl :: cs "PAGE:" ++ " "%char :: l ++ nl :: cs "URL:" ++ " "%char :: u ++
  nl :: cs "TIMESTAMP:" ++ " "%char :: t ++ nl :: cs "SIZE:" ++ " "%char ::
  size_field html ++ nl :: rule80.

(** The appended blocks, separator and HTML, of a sequence of pages. *)
Fixpoint chunks (ps : list (chars * chars * chars * chars)) : chars :=
  match ps with
  | [] => []
  | (l, u, t, h) :: r => separator l u t h ++ h ++ chunks r
  end.

(** The matches [finditer] is expected to report for [chunks ps] placed at
    offset [pos]. *)
Fixpoint seps_of (ps : list (chars * chars * chars * chars)) (pos : nat)
  : list (nat * nat * list chars) :=
  match ps with
  | [] => []
  | (l, u, t, h) :: r =>
    let st := pos + 2 in
    let en := st + length (header l u t h) in
    (st, en, [l; u; t; size_field h]) :: seps_of r (en + 2 + length h)
  end.

(** The conditions of the round trip on the written pages. *)
Definition pages_ok (ps : list (chars * chars * chars * chars)) : bool :=
  forallb (fun '(l, u, t, h) => field_ok l && field_ok u && field_ok t && negb (has_rule h)) ps.

(** The pages [split_pages] should give back for [ps]: the metadata and the
    HTML, each stripped. *)
Fixpoint read_back (ps : list (chars * chars * chars * chars)) : list page :=
  match ps with
  | [] => []
  | (l, u, t, h) :: r => mk_page (strip l) (strip u) (strip t) (strip h) :: read_back r
  end.

End LoaderSpec.

(** Two pages appended to an empty file; the first HTML carries a header
    block of its own, the second starts with a space. *)
Definition C6_fake_header : Loader.chars :=
  (Loader.cs "<p>" ++ [Loader.nl] ++ Loader.rule80 ++ [Loader.nl] ++
   Loader.cs "PAGE: fake" ++ [Loader.nl] ++ Loader.cs "URL: x" ++ [Loader.nl] ++
   Loader.cs "TIMESTAMP: y" ++ [Loader.nl] ++ Loader.cs "SIZE: 1 bytes" ++ [Loader.nl] ++
   Loader.rule80 ++ Loader.cs "</p>")%list.

Definition C6_pages : list (Loader.chars * Loader.chars * Loader.chars * Loader.chars) :=
  [(Loader.cs "product_page", Loader.cs "https://www.amazon.in/dp/B0TEST0000",
    Loader.cs "2026-01-01 00:00:00", C6_fake_header);
   (Loader.cs "reviews_page_1", Loader.cs "https://www.amazon.in/product-reviews/B0TEST0000",
    Loader.cs "2026-01-01 00:00:05", Loader.cs " <html>x</html>")].

(** Two pages that meet the conditions of the round trip. *)
Definition C6_ok_pages : list (Loader.chars * Loader.chars * Loader.chars * Loader.chars) :=
  [(Loader.cs "product_page", Loader.cs "https://www.amazon.in/dp/B0TEST0000",
    Loader.cs "2026-01-01 00:00:00", Loader.cs "<html><body>Product</body></html>");
   (Loader.cs "reviews_page_1", Loader.cs "https://www.amazon.in/product-reviews/B0TEST0000",
    Loader.cs "2026-01-01 00:00:05", Loader.cs "<div>review</div>")].

(* ================================================================== *)
(** ** html_scraper.py *)

Module HtmlScraper.


End HtmlScraper.

(** The labels [scrape_product_to_reviews] writes, in order, when it runs
    to the end of the pagination loop. *)
Definition scrape_labels : list string :=
  "product_page" :: map (fun n => "reviews_page_" ++ pretty n) (seq 1 Worker.MAX_REVIEW_PAGES).

(** The sum of the HTML lengths of saved blocks. *)
Definition html_bytes (l : list (string * string * string)) : nat :=
  list_sum (map (fun '(_, _, h) => String.length h) l).

(** The output blocks [sv] and the counters [tp], [tb] extend those of [s0]
    by new blocks with labels [L] (in write order), counted by
    [total_pages] and [total_bytes]. *)
Definition appended (s0 : Worker.state) (sv : list (string * string * string)) (tp tb : nat)
  (L : list string) : Prop :=
  exists new, sv = (new ++ Worker.saved s0)%list /\
    map (fun '(l, _, _) => l) (rev new) = L /\
    tp = Worker.total_pages s0 + length new /\
    tb = Worker.total_bytes s0 + html_bytes new.

(* ================================================================== *)
(** ** The extraction pipeline: extract/run.py *)

Module Extract.

(** The dict [_parse_single_review] builds. *)
Record review := mk_review {
  profile_name : string;
  rating : option string;
  review_tag : string;
  review_date : string;
  review_text : string }.

(** The deduplication key [(r["profile_name"], r["review_tag"])]. *)
Definition review_key (r : review) : string * string := (profile_name r, review_tag r).

(** The dict [extract_all] returns. *)
Record result := mk_result {
  product_title : option string;
  price : option string;
  about_this_item : list string;
  reviews : list review }.

Section Pipeline.

(** The BeautifulSoup extractors of extract/product.py and extract/reviews.py,
    applied to the HTML text of a page. *)
Variable get_product_title : Loader.chars -> option string.
Variable get_price : Loader.chars -> option string.
Variable get_about_items : Loader.chars -> list string.
Variable get_reviews : Loader.chars -> list review.

(** The product-info loop: the first page labelled [product_page] or
    [full_file] gives title, price and bullets ([break]); none gives
    [None], [None], [[]]. *)
Fixpoint product_info (pages : list Loader.page) : option string * option string * list string :=
  match pages with
  | [] => (None, None, [])
  | page :: rest =>
    if bool_decide (Loader.label page = Loader.cs "product_page")
       || bool_decide (Loader.label page = Loader.cs "full_file")
    then let soup := Loader.soup page in
         (get_product_title soup, get_price soup, get_about_items soup)
    else product_info rest
  end.

(** The body of [for r in page_reviews]: [all_reviews] and [seen_ids]. *)
Definition add_review (acc : list review * gset (string * string)) (r : review)
  : list review * gset (string * string) :=
  let '(all_reviews, seen_ids) := acc in
  let key := review_key r in
  if bool_decide (key ∈ seen_ids) then (all_reviews, seen_ids)
  else (app all_reviews [r], {[key]} ∪ seen_ids).

(** The review loop over all pages. *)
Definition collect_reviews (pages : list Loader.page) : list review * gset (string * string) :=
  fold_left (fun acc page => fold_left add_review (get_reviews (Loader.soup page)) acc)
            pages ([], ∅).

(** [extract_all] on the content [load_html] returned. *)
Definition extract_all (raw : Loader.chars) : result :=
  let pages := Loader.split_pages raw in
  let '(product_title, price, about_items) := product_info pages in
  let all_reviews := fst (collect_reviews pages) in
  mk_result product_title price about_items all_reviews.

End Pipeline.

(** What [all_reviews] and [seen_ids] hold after the loop has read the
    reviews [all]: one review per key, in the order read, each the first of
    its key, every key read present, and [seen_ids] the keys kept. *)
Definition dedup_inv (all out : list review) (seen : gset (string * string)) : Prop :=
  NoDup (map review_key out) /\
  sublist out all /\
  (forall r, In r all -> In (review_key r) (map review_key out)) /\
  (forall r, In r out -> exists pre post, all = app pre (r :: post) /\
                                          ~ In (review_key r) (map review_key pre)) /\
  (forall k, k ∈ seen <-> In k (map review_key out)).

End Extract.

(* ================================================================== *)
(** * Theorems *)

Lemma first_match_none {A} (f : A -> bool) (xs : list A) :
  (forall x, In x xs -> f x = false) -> first_match f xs = None.
Proof.
  induction xs as [|x r IH]; intros H; simpl; [reflexivity|].
  rewrite (H x (or_introl eq_refl)). apply IH. intros y Hy. apply H. now right.
Qed.

Lemma first_match_some {A} (f : A -> bool) (xs : list A) (x : A) :
  In x xs -> f x = true -> exists y, first_match f xs = Some y.
Proof.
  induction xs as [|z r IH]; simpl; intros Hin Hf; [contradiction|].
  destruct (f z) eqn:Ez; [now exists z|].
  destruct Hin as [<-|Hin]; [congruence|]. now apply IH.
Qed.


Lemma first_match_spec {A} (f : A -> bool) (xs : list A) (y : A) :
  first_match f xs = Some y -> In y xs /\ f y = true.
Proof.
  induction xs as [|z r IH]; simpl; [discriminate|].
  destruct (f z) eqn:Ez.
  - intros [= <-]. auto.
  - intros H. destruct (IH H). auto.
Qed.

Lemma lower_length (s : string) : String.length (lower s) = String.length s.
Proof. induction s; simpl; congruence. Qed.

(** ** C2 *)

(** C2 (counterexample): a snapshot at the CAPTCHA URL
    [/errors/validateCaptcha] whose title is "Access Denied" is classified
    [Blocked] by [navigate_with_protection], although
    [CaptchaDetector.is_captcha_present] alone reports a ["url"] CAPTCHA. *)
Lemma C2_captcha_url_with_block_title_is_blocked :
  protected_classify captcha_url_block_title
    = Blocked (Some "Title contains: access denied") /\
  CaptchaDetector.is_captcha_present captcha_url_block_title = (true, Some "url").
Proof. split; vm_compute; reflexivity. Qed.

(** C2 (amended): the classification runs the generic block checks of
    [BlockDetector.is_blocked] first (block phrases in the title, then in the
    first 5,000 characters, then length below 1,000), and the first of them
    that fires decides [Blocked]; only when none fires are the five CAPTCHA
    checks consulted, in the order URL, title, element, text pattern, small
    page, the first match winning, and [Clean] when none fires.  In
    particular a block phrase in the title makes the snapshot [Blocked] with a
    "Title contains" reason whatever its URL. *)
Theorem C2_classification_priority :
  forall d : snapshot,
    (fst (BlockDetector.is_blocked d) = true ->
       protected_classify d = Blocked (snd (BlockDetector.is_blocked d))) /\
    (fst (BlockDetector.is_blocked d) = false ->
       protected_classify d =
         if CaptchaDetector.url_check d then Captcha (Some "url")
         else if CaptchaDetector.title_check d then Captcha (Some "title")
         else if CaptchaDetector.element_check d then Captcha (Some "element")
         else if CaptchaDetector.text_check d then Captcha (Some "text_pattern")
         else if CaptchaDetector.small_page_check d then Captcha (Some "small_page")
         else Clean) /\
    (forall i, In i BlockDetector.BLOCK_INDICATORS ->
       contains i (lower (title d)) = true ->
       exists j, In j BlockDetector.BLOCK_INDICATORS /\
                 contains j (lower (title d)) = true /\
                 protected_classify d = Blocked (Some ("Title contains: " ++ j))).
Proof.
  intros d. unfold protected_classify. split; [|split].
  - destruct (BlockDetector.is_blocked d) as [[|] r]; simpl; congruence.
  - destruct (BlockDetector.is_blocked d) as [[|] r]; simpl; [discriminate|].
    intros _. unfold CaptchaDetector.is_captcha_present.
    destruct (CaptchaDetector.url_check d), (CaptchaDetector.title_check d),
      (CaptchaDetector.element_check d), (CaptchaDetector.text_check d),
      (CaptchaDetector.small_page_check d); reflexivity.
  - intros i Hi Hc. unfold BlockDetector.is_blocked.
    destruct (first_match_some (fun i => contains i (lower (title d)))
                BlockDetector.BLOCK_INDICATORS i Hi Hc) as [j Hj].
    destruct (first_match_spec _ _ _ Hj) as [Hin Hcj].
    exists j. rewrite Hj. auto.
Qed.

(** The witness of C2 at the snapshot of the counterexample. *)
Lemma C2_classification_priority_witness :
  protected_classify captcha_url_block_title
    = Blocked (Some "Title contains: access denied").
Proof.
  destruct (proj2 (proj2 (C2_classification_priority captcha_url_block_title))
              "access denied" (or_introl eq_refl) ltac:(vm_compute; reflexivity))
    as [j [Hj [Hc ->]]].
  destruct Hj as [<-|Hj]; [reflexivity|].
  exfalso. repeat (destruct Hj as [<-|Hj]; [vm_compute in Hc; discriminate|]).
  destruct Hj.
Defined.

(** ** C9 *)

(** C9 (counterexample): the review worker's classification
    [scraper/detection.py: check_for_blocks] reports an indicator-free
    3,000-character page at an ordinary product URL as blocked (its small-page
    threshold is 5,000). *)
Lemma C9_worker_blocks_3000_byte_page :
  String.length plain_3000 = 3000%nat /\
  Detection.check_for_blocks (current_url plain_snapshot) plain_3000
    = (true, Some "Page suspiciously small: 3000 bytes").
Proof. split; vm_compute; reflexivity. Qed.

(** C9 (amended): for a snapshot on which none of the CAPTCHA checks and none
    of the generic block phrases fires, the classification of
    [navigate_with_protection] is [Blocked (Some "Page suspiciously small")]
    exactly when the page has fewer than 1,000 characters and [Clean]
    otherwise; the review worker's [check_for_blocks], on a URL without
    [/ap/signin], [/ap/register] or "captcha" and a page without its three
    CAPTCHA phrases, reports the page blocked exactly when it has fewer than
    5,000 characters. *)
Theorem C9_small_page_thresholds :
  (forall d : snapshot, indicator_free d ->
     protected_classify d =
       if (String.length (page_source d) <? 1000)%nat
       then Blocked (Some "Page suspiciously small") else Clean) /\
  (forall url source : string,
     contains "/ap/signin" (lower url) = false ->
     contains "/ap/register" (lower url) = false ->
     contains "captcha" (lower url) = false ->
     (forall i, In i Detection._CAPTCHA_INDICATORS ->
        contains i (lower source) = false) ->
     fst (Detection.check_for_blocks url source) =
       (String.length source <? 5000)%nat).
Proof.
  split.
  - intros d (Hu & Ht & He & Hx & Hs & Hb).
    unfold protected_classify, BlockDetector.is_blocked.
    rewrite first_match_none by (intros i Hi; apply (Hb i Hi)).
    rewrite first_match_none by (intros i Hi; apply (Hb i Hi)).
    rewrite lower_length.
    destruct (String.length (page_source d) <? 1000)%nat; [reflexivity|].
    unfold CaptchaDetector.is_captcha_present. now rewrite Hu, Ht, He, Hx, Hs.
  - intros url source H1 H2 H3 Hi.
    unfold Detection.check_for_blocks. rewrite H1, H2, H3. cbn [orb].
    rewrite first_match_none by exact Hi.
    rewrite lower_length.
    destruct (String.length source <? 5000)%nat; reflexivity.
Qed.

(** The witness of C9: the 3,000-character plain page is [Clean] for
    [navigate_with_protection]. *)
Lemma C9_small_page_thresholds_witness :
  protected_classify plain_snapshot = Clean.
Proof.
  rewrite (proj1 C9_small_page_thresholds plain_snapshot).
  - vm_compute. reflexivity.
  - unfold indicator_free.
    split; [vm_compute; reflexivity|]. split; [vm_compute; reflexivity|].
    split; [vm_compute; reflexivity|]. split; [vm_compute; reflexivity|].
    split; [vm_compute; reflexivity|].
    intros i Hi.
    repeat (destruct Hi as [<-|Hi]; [split; vm_compute; reflexivity|]); destruct Hi.
Defined.

(** ** C3 *)

Lemma nth_error_mod_some {A} (x : A) (r : list A) (pick : nat) :
  exists p, nth_error (x :: r) (pick mod length (x :: r)) = Some p /\ In p (x :: r).
Proof.
  destruct (nth_error (x :: r) (pick mod length (x :: r))) as [p|] eqn:E.
  - exists p. split; [reflexivity|]. eapply nth_error_In. exact E.
  - exfalso. apply nth_error_None in E.
    pose proof (Nat.mod_upper_bound pick (length (x :: r))). simpl in *. lia.
Qed.

(** C3: on an empty pool [get_next_proxy] returns [None]; otherwise, while
    some descriptor of the pool is not marked failed, it returns a descriptor
    of the pool that is not in the failure set and leaves the state as it is;
    when every descriptor of the pool is marked failed it clears the failure
    set and returns some member of the pool.  [mark_failed] only adds to the
    failure set (at most the descriptor given), is idempotent, and neither
    operation changes the candidate list. *)
Theorem C3_proxy_pool_contract :
  forall (pick : nat) (pm : ProxyManager.t) (o : option string),
    (ProxyManager.proxy_list pm = [] ->
       ProxyManager.get_next_proxy pick pm = (None, pm)) /\
    ((exists q, In q (ProxyManager.proxy_list pm) /\
                q ∉ ProxyManager.failed_proxies pm) ->
       exists p, ProxyManager.get_next_proxy pick pm = (Some p, pm) /\
                 In p (ProxyManager.proxy_list pm) /\
                 p ∉ ProxyManager.failed_proxies pm) /\
    (ProxyManager.proxy_list pm <> [] ->
     (forall q, In q (ProxyManager.proxy_list pm) ->
                q ∈ ProxyManager.failed_proxies pm) ->
       exists p, ProxyManager.get_next_proxy pick pm =
                   (Some p, ProxyManager.mk (ProxyManager.proxy_list pm)
                                            (ProxyManager.current_index pm) ∅) /\
                 In p (ProxyManager.proxy_list pm)) /\
    ProxyManager.proxy_list (snd (ProxyManager.get_next_proxy pick pm))
      = ProxyManager.proxy_list pm /\
    ProxyManager.failed_proxies pm
      ⊆ ProxyManager.failed_proxies (ProxyManager.mark_failed o pm) /\
    ProxyManager.failed_proxies (ProxyManager.mark_failed o pm)
      ⊆ ProxyManager.failed_proxies pm ∪
        (match o with Some p => {[p]} | None => ∅ end) /\
    ProxyManager.mark_failed o (ProxyManager.mark_failed o pm)
      = ProxyManager.mark_failed o pm /\
    ProxyManager.proxy_list (ProxyManager.mark_failed o pm)
      = ProxyManager.proxy_list pm.
Proof.
  intros pick [l ci F] o. simpl.
  unfold ProxyManager.get_next_proxy, ProxyManager.mark_failed. simpl.
  split; [|split; [|split; [|split]]].
  - intros ->. reflexivity.
  - intros (q & Hq & Hnf).
    destruct l as [|x r]; [destruct Hq|].
    destruct (List.filter (fun p => bool_decide (p ∉ F)) (x :: r)) as [|a av] eqn:Ef.
    + exfalso. assert (Hin : In q (List.filter (fun p => bool_decide (p ∉ F)) (x :: r))).
      { apply filter_In. split; [exact Hq|]. now apply bool_decide_eq_true. }
      rewrite Ef in Hin. destruct Hin.
    + destruct (nth_error_mod_some a av pick) as (p & Hp & Hin).
      exists p. rewrite Hp. rewrite <- Ef in Hin.
      apply filter_In in Hin as [Hin Hb]. apply bool_decide_eq_true in Hb. auto.
  - intros Hne Hall. destruct l as [|x r]; [congruence|].
    destruct (List.filter (fun p => bool_decide (p ∉ F)) (x :: r)) as [|a av] eqn:Ef.
    + destruct (nth_error_mod_some x r pick) as (p & Hp & Hin).
      exists p. rewrite Hp. auto.
    + exfalso. assert (Hin : In a (List.filter (fun p => bool_decide (p ∉ F)) (x :: r)))
        by (rewrite Ef; now left).
      apply filter_In in Hin as [Hin Hb]. apply bool_decide_eq_true in Hb.
      exact (Hb (Hall a Hin)).
  - destruct l as [|x r]; [reflexivity|].
    destruct (List.filter (fun p => bool_decide (p ∉ F)) (x :: r)); reflexivity.
  - destruct o as [p|]; [|repeat split; set_solver].
    destruct (String.eqb p "") eqn:Ep; simpl; [repeat split; set_solver|].
    rewrite ?Ep; simpl. repeat split; try set_solver.
    f_equal. set_solver.
Qed.

(** ** C4 *)

Section ThrottleFacts.

Local Open Scope Q_scope.

Lemma throttle_wait_multiplier (u now : Q) (th : Throttle.t) :
  Throttle.burst_threshold th <> 0%Z ->
  Throttle.backoff_multiplier (snd (Throttle.wait u now th)) =
    if Z.eqb ((Throttle.request_count th + 1) mod Throttle.burst_threshold th)%Z 0
    then Throttle.py_min (Throttle.backoff_multiplier th * (3#2)) 3 else Throttle.backoff_multiplier th.
Proof.
  intros Hbt. unfold Throttle.wait. apply Z.eqb_neq in Hbt. rewrite Hbt.
  destruct (Qlt_le_dec _ _); reflexivity.
Qed.

Lemma throttle_wait_zero (u now : Q) (th : Throttle.t) :
  Throttle.burst_threshold th = 0%Z ->
  Throttle.backoff_multiplier (snd (Throttle.wait u now th)) = Throttle.backoff_multiplier th.
Proof. intros Hbt. unfold Throttle.wait. rewrite Hbt. reflexivity. Qed.

Lemma throttle_step_bounds (o : Throttle.op) (th : Throttle.t) :
  1 <= Throttle.backoff_multiplier th <= 10 -> 1 <= Throttle.backoff_multiplier (Throttle.step o th) <= 10.
Proof.
  intros [H1 H2]. destruct o as [u now| |k|]; simpl.
  - destruct (Z.eq_dec (Throttle.burst_threshold th) 0%Z) as [E|E].
    + rewrite throttle_wait_zero by exact E. lra.
    + rewrite throttle_wait_multiplier by exact E.
      destruct (Z.eqb _ 0); [|lra].
      unfold Throttle.py_min. destruct (Qlt_le_dec _ _); lra.
  - unfold Throttle.report_success, Throttle.py_max.
    destruct (Qlt_le_dec 1 (Throttle.backoff_multiplier th)); [|lra]. simpl.
    destruct (Qlt_le_dec _ _); lra.
  - unfold Throttle.report_error, Throttle.py_min.
    destruct (String.eqb k "rate_limit"); [simpl; destruct (Qlt_le_dec _ _); lra|].
    destruct (String.eqb k "block"); [simpl; destruct (Qlt_le_dec _ _); lra|].
    lra.
  - simpl. lra.
Qed.

Lemma throttle_run_bounds (ops : list Throttle.op) (th : Throttle.t) :
  1 <= Throttle.backoff_multiplier th <= 10 -> 1 <= Throttle.backoff_multiplier (Throttle.run ops th) <= 10.
Proof.
  revert th. induction ops as [|o r IH]; intros th H; simpl; [exact H|].
  apply IH. now apply throttle_step_bounds.
Qed.

End ThrottleFacts.

(** C4: from a fresh [ThrottleManager] (multiplier 1.0), after any sequence
    of [wait()], [report_success()], [report_error(kind)] and [reset()] calls
    the multiplier stays within [1.0, 10.0]; a [wait()] whose running count is
    a multiple of [burst_threshold] sets it to [min(1.5 m, 3.0)] and any other
    [wait()] leaves it unchanged; [report_success()] from [m > 1.0] sets it to
    [max(1.0, 0.9 m)], which is below [m] and at least 1.0, and otherwise
    leaves it unchanged; [report_error] sets it to [min(2 m, 5.0)] for
    "rate_limit", to [min(3 m, 10.0)] for "block" and leaves it unchanged for
    "generic". *)
Theorem C4_throttle_multiplier :
  (forall (a b : Q) (bt : Z) (ops : list Throttle.op),
     (1 <= Throttle.backoff_multiplier (Throttle.run ops (Throttle.init a b bt)) <= 10)%Q) /\
  (forall (u now : Q) (th : Throttle.t),
     let m := Throttle.backoff_multiplier th in
     let m' := Throttle.backoff_multiplier (snd (Throttle.wait u now th)) in
     Throttle.burst_threshold th <> 0%Z ->
     (((Throttle.request_count th + 1) mod Throttle.burst_threshold th = 0)%Z ->
        ((m * (3#2) <= 3)%Q -> m' = (m * (3#2))%Q) /\ ((3 < m * (3#2))%Q -> m' = 3%Q)) /\
     (((Throttle.request_count th + 1) mod Throttle.burst_threshold th <> 0)%Z -> m' = m)) /\
  (forall th : Throttle.t,
     let m := Throttle.backoff_multiplier th in
     let m' := Throttle.backoff_multiplier (Throttle.report_success th) in
     ((1 < m)%Q -> ((1 < m * (9#10))%Q -> m' = (m * (9#10))%Q) /\
                  ((m * (9#10) <= 1)%Q -> m' = 1%Q) /\
                  (1 <= m' < m)%Q) /\
     ((m <= 1)%Q -> Throttle.report_success th = th)) /\
  (forall th : Throttle.t,
     let m := Throttle.backoff_multiplier th in
     (((m * 2 <= 5)%Q -> Throttle.backoff_multiplier (Throttle.report_error "rate_limit" th) = (m * 2)%Q) /\
      ((5 < m * 2)%Q -> Throttle.backoff_multiplier (Throttle.report_error "rate_limit" th) = 5%Q)) /\
     (((m * 3 <= 10)%Q -> Throttle.backoff_multiplier (Throttle.report_error "block" th) = (m * 3)%Q) /\
      ((10 < m * 3)%Q -> Throttle.backoff_multiplier (Throttle.report_error "block" th) = 10%Q)) /\
     Throttle.report_error "generic" th = th).
Proof.
  split; [|split; [|split]].
  - intros a b bt ops. apply throttle_run_bounds. simpl. lra.
  - intros u now th m m' Hbt. subst m m'.
    rewrite throttle_wait_multiplier by exact Hbt. split.
    + intros Hd. apply Z.eqb_eq in Hd. rewrite Hd. unfold Throttle.py_min.
      split; intros H; destruct (Qlt_le_dec _ _) as [L|L]; try reflexivity; lra.
    + intros Hd. apply Z.eqb_neq in Hd. rewrite Hd. reflexivity.
  - intros th m m'. subst m m'. unfold Throttle.report_success. split.
    + intros H. destruct (Qlt_le_dec 1 _) as [_|L]; [|lra]. simpl.
      unfold Throttle.py_max.
      split; [|split]; [intros H'|intros H'|];
        destruct (Qlt_le_dec _ _) as [L|L]; try reflexivity; lra.
    + intros H. destruct (Qlt_le_dec 1 _) as [L|_]; [lra|reflexivity].
  - intros th m. subst m. unfold Throttle.report_error, Throttle.py_min. simpl.
    split; [|split; [|reflexivity]];
      split; intros H; destruct (Qlt_le_dec _ _) as [L|L]; try reflexivity; lra.
Qed.

(** ** C5 *)

(** C5: for every seed [S], two constructions [BrowserFingerprint(S)] made
    at any two times yield the same fingerprint record: every attribute
    (resolution, colour depth, pixel ratio, window size, user agent,
    languages, timezone, WebGL pair, hardware concurrency, device memory,
    platform, canvas and audio noise) and the three derived hashes agree,
    whatever the generator behind [random.Random] and the digest function
    are, because every draw comes from a generator of its own seeded with
    [S]. *)
Theorem C5_fingerprint_deterministic :
  forall (rng : Type) (Random : Z -> rng) (_randbelow : nat -> rng -> nat * rng)
         (random : rng -> Q * rng) (md5_hexdigest : string -> string)
         (s : Z) (now1 now2 : Z),
    let f1 := Fingerprint.BrowserFingerprint rng Random _randbelow random md5_hexdigest now1 (Some s) in
    let f2 := Fingerprint.BrowserFingerprint rng Random _randbelow random md5_hexdigest now2 (Some s) in
    f1 = f2 /\
    f1 = Fingerprint._generate_fingerprint rng _randbelow random md5_hexdigest s (Random s) /\
    Fingerprint.seed f1 = s /\
    (Fingerprint.canvas_hash f1, Fingerprint.webgl_hash f1, Fingerprint.audio_hash f1)
      = Fingerprint._generate_ids md5_hexdigest s (Fingerprint.user_agent f1)
                                  (Fingerprint.screen_width f1).
Proof.
  intros rng Random rb rnd md5 s now1 now2 f1 f2. subst f1 f2.
  split; [reflexivity|]. split; [reflexivity|].
  unfold Fingerprint.BrowserFingerprint, Fingerprint._generate_fingerprint.
  repeat match goal with
         | |- context [let '(_, _) := ?e in _] => destruct e eqn:?
         end.
  split; [reflexivity|]. simpl. congruence.
Qed.

(** ** C1 *)

Section ProtectedFacts.

Lemma start_driver_throttle (p : nat) (s : Protected.t) :
  Protected.throttle_manager (Protected.start_driver p s) = Protected.throttle_manager s.
Proof.
  unfold Protected.start_driver.
  destruct (ProxyManager.get_next_proxy p (Protected.proxy_manager s)); reflexivity.
Qed.

Lemma start_driver_attempts (p : nat) (s : Protected.t) :
  Protected.count_attempts (Protected.log (Protected.start_driver p s))
    = Protected.count_attempts (Protected.log s).
Proof.
  unfold Protected.start_driver.
  destruct (ProxyManager.get_next_proxy p (Protected.proxy_manager s)); reflexivity.
Qed.

Lemma rotate_ip_throttle (p : nat) (s : Protected.t) :
  Protected.throttle_manager (Protected.rotate_ip p s) = Protected.throttle_manager s.
Proof. unfold Protected.rotate_ip. now rewrite start_driver_throttle. Qed.

Lemma rotate_ip_attempts (p : nat) (s : Protected.t) :
  Protected.count_attempts (Protected.log (Protected.rotate_ip p s))
    = Protected.count_attempts (Protected.log s).
Proof. unfold Protected.rotate_ip. now rewrite start_driver_attempts. Qed.

Lemma wait_slept (u now : Q) (th : Throttle.t) :
  Throttle.burst_threshold th <> 0%Z ->
  exists secs, Throttle.wait u now th = (Throttle.Slept secs, snd (Throttle.wait u now th)) /\
    Throttle.burst_threshold (snd (Throttle.wait u now th)) = Throttle.burst_threshold th.
Proof.
  intros H. unfold Throttle.wait. apply Z.eqb_neq in H. rewrite H.
  eexists. split; reflexivity.
Qed.

(** One attempt on a page classified blocked, with a throttle that does not
    divide by zero: the loop moves on, one more attempt is logged and the
    burst threshold is kept. *)
Lemma attempt_blocked (r : Z) (a : nat) (e : Protected.attempt_env) (s : Protected.t) :
  Throttle.burst_threshold (Protected.throttle_manager s) <> 0%Z ->
  Protected.ae_nav_error e = false ->
  fst (BlockDetector.is_blocked (Protected.ae_page e)) = true ->
  exists s', Protected.attempt r a e s = (Protected.NextAttempt, s') /\
    Protected.count_attempts (Protected.log s') = S (Protected.count_attempts (Protected.log s)) /\
    Throttle.burst_threshold (Protected.throttle_manager s')
      = Throttle.burst_threshold (Protected.throttle_manager s).
Proof.
  intros Hbt Hnav Hbl. unfold Protected.attempt.
  destruct (wait_slept (Protected.ae_u e) (Protected.ae_now e)
              (Protected.throttle_manager s) Hbt) as [secs [Hw Hb]].
  simpl. rewrite Hw, Hnav.
  destruct (BlockDetector.is_blocked (Protected.ae_page e)) as [[|] rs]; [|discriminate].
  eexists. split; [reflexivity|]. split.
  - rewrite rotate_ip_attempts. unfold Protected.report_error. simpl.
    destruct (Protected.driver s); [reflexivity|].
    change (Protected.count_attempts (Protected.EvReportError ?k :: ?l))
      with (Protected.count_attempts l).
    rewrite start_driver_attempts. reflexivity.
  - rewrite rotate_ip_throttle. unfold Protected.report_error. simpl.
    destruct (Protected.driver s); [exact Hb|].
    rewrite start_driver_throttle. exact Hb.
Qed.

Lemma attempts_all_blocked (fuel : nat) (r : Z) (a : nat)
      (env : nat -> Protected.attempt_env) (s : Protected.t) :
  Throttle.burst_threshold (Protected.throttle_manager s) <> 0%Z ->
  (forall k, Protected.ae_nav_error (env k) = false /\
             fst (BlockDetector.is_blocked (Protected.ae_page (env k))) = true) ->
  exists s', Protected.attempts fuel r a env s = (false, s') /\
    Protected.count_attempts (Protected.log s') = fuel + Protected.count_attempts (Protected.log s).
Proof.
  revert a s. induction fuel as [|f IH]; intros a s Hbt Henv; simpl.
  - eexists. split; reflexivity.
  - destruct (Henv a) as [Hn Hb].
    destruct (attempt_blocked r a (env a) s Hbt Hn Hb) as (s1 & Ha & Hc & Hbt1).
    rewrite Ha.
    destruct (IH (S a) s1) as (s2 & Hr & Hc2); [congruence|exact Henv|].
    exists s2. split; [exact Hr|]. lia.
Qed.

End ProtectedFacts.

(** C1 (counterexample): when every page comes back blocked, a call with
    [max_retries=0] falls back to [self.max_retries] and makes 3 attempts,
    and a call with [max_retries=2] rotates the identity twice, after the
    last attempt too, not once. *)
Lemma C1_zero_budget_and_final_rotation :
  let r0 := Protected.navigate_with_protection "https://www.amazon.in/dp/B0TEST0000"
              (Some 0%Z) blocked_env (Protected.init C1_pool) in
  let r2 := Protected.navigate_with_protection "https://www.amazon.in/dp/B0TEST0000"
              (Some 2%Z) blocked_env (Protected.init C1_pool) in
  fst r0 = false /\ Protected.count_attempts (Protected.log (snd r0)) = 3%nat /\
  fst r2 = false /\ Protected.count_attempts (Protected.log (snd r2)) = 2%nat /\
  Protected.count_rotations (Protected.log (snd r2)) = 2%nat.
Proof. vm_compute. repeat split. Qed.

(** C1 (amended): let the budget be [max_retries] when it is given and
    non-zero, and [self.max_retries] (3 for a new scraper) otherwise.  When
    every attempt loads a page that [BlockDetector.is_blocked] flags (and the
    throttle's burst threshold is not zero), [navigate_with_protection]
    returns [False], raising nothing, after exactly that many attempts (none
    for a negative budget). *)
Theorem C1_blocked_navigation_budget :
  forall (url : string) (mr : option Z) (env : nat -> Protected.attempt_env) (s : Protected.t),
    Throttle.burst_threshold (Protected.throttle_manager s) <> 0%Z ->
    (forall k, Protected.ae_nav_error (env k) = false /\
               fst (BlockDetector.is_blocked (Protected.ae_page (env k))) = true) ->
    let r := Protected.effective_retries mr s in
    (forall n, mr = Some n -> n <> 0%Z -> r = n) /\
    ((mr = None \/ mr = Some 0%Z) -> r = Protected.max_retries s) /\
    exists s', Protected.navigate_with_protection url mr env s = (false, s') /\
      Protected.count_attempts (Protected.log s')
        = (Z.to_nat r + Protected.count_attempts (Protected.log s))%nat.
Proof.
  intros url mr env s Hbt Henv r. split; [|split].
  - intros n -> Hn. subst r. unfold Protected.effective_retries.
    destruct n; [contradiction|reflexivity|reflexivity].
  - intros [-> | ->]; reflexivity.
  - unfold Protected.navigate_with_protection.
    apply attempts_all_blocked; assumption.
Qed.

(** The witness of C1: the scraper with a pool of three proxies, asked for
    two attempts on a site that blocks every request. *)
Lemma C1_blocked_navigation_budget_witness :
  exists s', Protected.navigate_with_protection "https://www.amazon.in/dp/B0TEST0000"
               (Some 2%Z) blocked_env (Protected.init C1_pool) = (false, s') /\
             Protected.count_attempts (Protected.log s') = 2%nat.
Proof.
  destruct (C1_blocked_navigation_budget "https://www.amazon.in/dp/B0TEST0000"
              (Some 2%Z) blocked_env (Protected.init C1_pool)
              ltac:(vm_compute; discriminate)
              ltac:(intros k; split; vm_compute; reflexivity))
    as (_ & _ & s' & Hn & Hc).
  exists s'. split; [exact Hn|]. rewrite Hc. vm_compute. reflexivity.
Defined.

(** ** C7 *)

Lemma click_next_advances (web : Worker.site) (el : Worker.element) (v : string) (s : Worker.state) :
  ((Worker.el_script_click_ok el || Worker.el_native_click_ok el = true /\
    Worker.el_target el = Some v) \/
   (Worker.el_script_click_ok el || Worker.el_native_click_ok el = false /\
    Worker.el_href el = Some v /\ v <> "" /\ Worker.site_timeout web v = false)) ->
  exists s', Worker._click_next_page web el s = (Worker.Ok (Some (Worker.cur_url s)), s') /\
    Worker.cur_url s' = v /\ Worker.saved s' = Worker.saved s.
Proof.
  intros [[Hc Ht] | (Hc & Hh & Hne & Hto)];
    unfold Worker._click_next_page, Worker.bind, Worker.sleep, Worker.random_wait,
      Worker.tick, Worker.current_url, Worker.ret; simpl; rewrite Hc.
  - unfold Worker.follow_click. rewrite Ht. eexists. split; [reflexivity|]. auto.
  - rewrite Hh. apply String.eqb_neq in Hne. rewrite Hne.
    unfold Worker.get. rewrite Hto. eexists. split; [reflexivity|]. auto.
Qed.

Lemma pagination_step (web : Worker.site) (fuel pn : nat) (s : Worker.state) (v : string) :
  (pn < Worker.MAX_REVIEW_PAGES)%nat ->
  advances web (Worker.cur_url s) v ->
  Worker.blocked_or_redirected_url (Worker.cur_url s) = false ->
  v <> Worker.cur_url s ->
  Worker.last_page_heuristic (Worker.pg_title (Worker.site_page web v))
                             (Worker.pg_source (Worker.site_page web v)) = false ->
  exists s', Worker.pagination_loop web (S fuel) pn s = Worker.pagination_loop web fuel (S pn) s' /\
    Worker.cur_url s' = v /\
    Worker.saved s' = ("reviews_page_" ++ pretty (S pn), v,
                       Worker.pg_source (Worker.site_page web v)) :: Worker.saved s.
Proof.
  intros Hpn (el & Hnext & Hclick) Hbl Hne Hlast.
  destruct (click_next_advances web el v s Hclick) as (s1 & Hc & Hu1 & Hs1).
  cbn [Worker.pagination_loop].
  apply Nat.ltb_lt in Hpn. rewrite Hpn.
  unfold Worker.bind at 1. unfold Worker.find_next, Worker.cur_page. rewrite Hnext.
  unfold Worker.bind at 1. unfold Worker._is_blocked_or_redirected. rewrite Hbl.
  unfold Worker.bind at 1. rewrite Hc.
  cbn -[Worker.pagination_loop Worker.last_page_heuristic pretty String.eqb String.append].
  rewrite Hu1. apply String.eqb_neq in Hne. rewrite Hne.
  cbn -[Worker.pagination_loop Worker.last_page_heuristic pretty String.eqb String.append].
  unfold Worker.cur_page. cbn [Worker.cur_url Worker.emit]. rewrite Hu1, Hlast.
  eexists. split; [reflexivity|]. simpl. rewrite Hs1.
  unfold Worker.cur_page. cbn [Worker.cur_url Worker.emit]. rewrite Hu1. auto.
Qed.

Lemma pagination_no_next (web : Worker.site) (fuel pn : nat) (s : Worker.state) :
  (pn < Worker.MAX_REVIEW_PAGES)%nat ->
  Worker.pg_next (Worker.site_page web (Worker.cur_url s)) = None ->
  Worker.pagination_loop web (S fuel) pn s = (Worker.Ok tt, s).
Proof.
  intros Hpn Hn. cbn [Worker.pagination_loop].
  apply Nat.ltb_lt in Hpn. rewrite Hpn.
  unfold Worker.bind at 1. unfold Worker.find_next, Worker.cur_page. rewrite Hn.
  reflexivity.
Qed.

(** Symbolic evaluation of the worker's monadic code, keeping the loop, the
    detectors and the page lookup folded. *)
Ltac wsimpl :=
  cbn -[Worker.pagination_loop Detection.check_for_blocks String.prefix
        String.append pretty Worker.site_page];
  unfold Worker.cur_page; cbn [Worker.cur_url Worker.emit Worker.saved].

(** C7: a session that serves a product page whose "See more reviews" link
    leads (after the [/]-prefix rewrite) to reviews page 1, where the "Next
    page" link of reviews pages 1, 2 and 3 brings the browser to a new URL
    (pages 2, 3 and 4) and page 4 has none, with no load timeout, no block or
    CAPTCHA reported by [check_for_blocks] or [_is_blocked_or_redirected] and
    no last-page heuristic firing: [scrape_product_to_reviews] returns [True]
    and appends exactly five blocks to the output file, labelled
    product_page, reviews_page_1, ..., reviews_page_4, each with its URL and
    page source. *)
Theorem C7_four_review_pages :
  forall (web : Worker.site) (p h u1 u2 u3 u4 : string) (el : Worker.element)
         (s0 : Worker.state),
    let src u := Worker.pg_source (Worker.site_page web u) in
    let title u := Worker.pg_title (Worker.site_page web u) in
    Worker.site_timeout web p = false ->
    fst (Detection.check_for_blocks p (src p)) = false ->
    Worker.pg_see_more (Worker.site_page web p) = Some el ->
    Worker.el_href el = Some h ->
    u1 = (if String.prefix "/" h then "https://www.amazon.in" ++ h else h) ->
    Worker.site_timeout web u1 = false ->
    fst (Detection.check_for_blocks u1 (src u1)) = false ->
    advances web u1 u2 -> advances web u2 u3 -> advances web u3 u4 ->
    Worker.pg_next (Worker.site_page web u4) = None ->
    u2 <> u1 -> u3 <> u2 -> u4 <> u3 ->
    Worker.blocked_or_redirected_url u1 = false ->
    Worker.blocked_or_redirected_url u2 = false ->
    Worker.blocked_or_redirected_url u3 = false ->
    Worker.last_page_heuristic (title u2) (src u2) = false ->
    Worker.last_page_heuristic (title u3) (src u3) = false ->
    Worker.last_page_heuristic (title u4) (src u4) = false ->
    exists s, Worker.scrape_product_to_reviews web p s0 = (Worker.Ok true, s) /\
      Worker.saved s = ([("reviews_page_4", u4, src u4); ("reviews_page_3", u3, src u3);
                        ("reviews_page_2", u2, src u2); ("reviews_page_1", u1, src u1);
                        ("product_page", p, src p)] ++ Worker.saved s0)%list.
Proof.
  intros web p h u1 u2 u3 u4 el s0 src title Htp Hbp Hsm Hh Hu1 Htu1 Hbu1
    A12 A23 A34 Hn4 N21 N32 N43 B1 B2 B3 L2 L3 L4.
  subst src title.
  unfold Worker.scrape_product_to_reviews.
  unfold Worker.get at 1. rewrite Htp.
  wsimpl. rewrite Hbp. wsimpl. rewrite Hsm. wsimpl. rewrite Hh. wsimpl.
  rewrite <- Hu1. unfold Worker.get at 1. rewrite Htu1. wsimpl.
  rewrite Hbu1. wsimpl.
  unfold Worker.bind at 1.
  match goal with |- context [Worker.pagination_loop web _ 1 ?st] => set (s1 := st) end.
  change Worker.MAX_REVIEW_PAGES with (S 499).
  destruct (pagination_step web 499 1 s1 u2 ltac:(vm_compute; lia) A12 B1 N21 L2)
    as (s2 & E2 & C2 & S2).
  rewrite E2.
  destruct (pagination_step web 498 2 s2 u3 ltac:(vm_compute; lia))
    as (s3 & E3 & C3 & S3); [rewrite C2; exact A23|rewrite C2; exact B2|
                             rewrite C2; exact N32|exact L3|].
  rewrite E3.
  destruct (pagination_step web 497 3 s3 u4 ltac:(vm_compute; lia))
    as (s4 & E4 & C4 & S4); [rewrite C3; exact A34|rewrite C3; exact B3|
                             rewrite C3; exact N43|exact L4|].
  rewrite E4.
  rewrite (pagination_no_next web 496 4 s4 ltac:(vm_compute; lia)) by (rewrite C4; exact Hn4).
  exists s4. split; [reflexivity|].
  rewrite S4, S3, S2. reflexivity.
Qed.

(** The witness of C7 on a concrete four-page session. *)
Lemma C7_four_review_pages_witness :
  exists s, Worker.scrape_product_to_reviews C7_site C7_product C7_start = (Worker.Ok true, s) /\
    map (fun '(l, _, _) => l) (Worker.saved s) =
      ["reviews_page_4"; "reviews_page_3"; "reviews_page_2"; "reviews_page_1"; "product_page"].
Proof.
  destruct (C7_four_review_pages C7_site C7_product "/product-reviews/B0TEST0000?pageNumber=1"
              (C7_reviews 1) (C7_reviews 2) (C7_reviews 3) (C7_reviews 4)
              (Worker.mk_el (Some "/product-reviews/B0TEST0000?pageNumber=1") true true None)
              C7_start
              ltac:(reflexivity) ltac:(vm_compute; reflexivity) ltac:(vm_compute; reflexivity)
              ltac:(reflexivity) ltac:(vm_compute; reflexivity) ltac:(reflexivity)
              ltac:(vm_compute; reflexivity)
              ltac:(eexists; split; [vm_compute; reflexivity|left; split; reflexivity])
              ltac:(eexists; split; [vm_compute; reflexivity|left; split; reflexivity])
              ltac:(eexists; split; [vm_compute; reflexivity|left; split; reflexivity])
              ltac:(vm_compute; reflexivity)
              ltac:(vm_compute; discriminate) ltac:(vm_compute; discriminate)
              ltac:(vm_compute; discriminate)
              ltac:(vm_compute; reflexivity) ltac:(vm_compute; reflexivity)
              ltac:(vm_compute; reflexivity) ltac:(vm_compute; reflexivity)
              ltac:(vm_compute; reflexivity) ltac:(vm_compute; reflexivity))
    as (s & E & Sv).
  exists s. split; [exact E|]. rewrite Sv. reflexivity.
Defined.

(** ** C8 *)

(** The events a trace [t] adds on top of the older trace [u]. *)
Ltac trace_prefix t u :=
  lazymatch t with
  | u => constr:(@nil Worker.event)
  | ?a :: ?r => let r' := trace_prefix r u in constr:(a :: r')
  end.

Ltac close_loop_exit :=
  split; [reflexivity|]; split; [reflexivity|];
  cbn [Worker.trace Worker.saved Worker.emit];
  match goal with
  | |- exists new, ?t = (new ++ ?u)%list /\ _ =>
      let l := trace_prefix t u in exists l
  end;
  split; [reflexivity|]; cbn;
  repeat split; try lia; try reflexivity; intros; discriminate.

(** C8: in a session where every "Next page" click leaves the URL where it
    was, the pagination loop, from any page number and state, returns
    normally without saving anything, after at most one click and at most one
    3-second confirmation wait, the wait being the last thing it does: it
    re-checks the URL once after that wait and leaves the loop. *)
Theorem C8_noop_click_stops :
  forall web : Worker.site,
    (forall u el, Worker.pg_next (Worker.site_page web u) = Some el -> noop_click web u el) ->
    forall (fuel pn : nat) (s : Worker.state),
      let '(r, s') := Worker.pagination_loop web fuel pn s in
      r = Worker.Ok tt /\ Worker.saved s' = Worker.saved s /\
      exists new, Worker.trace s' = (new ++ Worker.trace s)%list /\
        count_clicks new <= 1 /\ count_confirmation_waits new <= 1 /\
        (count_confirmation_waits new = 1 -> head new = Some (Worker.EvSleep 3)).
Proof.
  intros web Hnoop fuel pn s.
  destruct fuel as [|f]; [close_loop_exit|].
  cbn [Worker.pagination_loop].
  destruct (pn <? Worker.MAX_REVIEW_PAGES)%nat; [|simpl; close_loop_exit].
  unfold Worker.bind at 1. unfold Worker.find_next, Worker.cur_page.
  destruct (Worker.pg_next (Worker.site_page web (Worker.cur_url s))) as [el|] eqn:En;
    [|simpl; close_loop_exit].
  specialize (Hnoop _ _ En). unfold noop_click in Hnoop.
  unfold Worker.bind at 1. unfold Worker._is_blocked_or_redirected.
  destruct (Worker.blocked_or_redirected_url (Worker.cur_url s)); [close_loop_exit|].
  unfold Worker._click_next_page.
  destruct (Worker.el_script_click_ok el || Worker.el_native_click_ok el) eqn:Ec.
  - destruct Hnoop as [Ht|Ht]; wsimpl; try rewrite Ec; unfold Worker.follow_click; rewrite Ht; wsimpl;
      rewrite String.eqb_refl; wsimpl; rewrite String.eqb_refl; wsimpl; close_loop_exit.
  - wsimpl. try rewrite Ec.
    destruct (Worker.el_href el) as [h|]; [|wsimpl; close_loop_exit].
    destruct Hnoop as [-> | [-> Hto]]; [wsimpl; close_loop_exit|].
    destruct (String.eqb (Worker.cur_url s) "") eqn:Ee; [wsimpl; close_loop_exit|].
    wsimpl. unfold Worker.get. rewrite Hto. wsimpl.
    rewrite String.eqb_refl; wsimpl; rewrite String.eqb_refl; wsimpl; close_loop_exit.
Qed.

(** The witness of C8: a session whose "Next page" click never navigates;
    the loop stops after one click and one confirmation wait. *)
Lemma C8_noop_click_stops_witness :
  (let '(r, s') := Worker.pagination_loop C8_site Worker.MAX_REVIEW_PAGES 1 C8_start in
   r = Worker.Ok tt /\ Worker.saved s' = Worker.saved C8_start /\
   exists new, Worker.trace s' = (new ++ Worker.trace C8_start)%list /\
     count_clicks new <= 1 /\ count_confirmation_waits new <= 1 /\
     (count_confirmation_waits new = 1 -> head new = Some (Worker.EvSleep 3))) /\
  count_confirmation_waits
    (Worker.trace (snd (Worker.pagination_loop C8_site Worker.MAX_REVIEW_PAGES 1 C8_start))) = 1.
Proof.
  split; [|vm_compute; reflexivity].
  apply (C8_noop_click_stops C8_site).
  intros u el H. simpl in H. injection H as <-. left. reflexivity.
Defined.

(** ** C10 *)

Lemma click_next_keeps_saved (web : Worker.site) (el : Worker.element) (s : Worker.state) :
  Worker.saved (snd (Worker._click_next_page web el s)) = Worker.saved s /\
  forall o s1, Worker._click_next_page web el s = (o, s1) -> Worker.saved s1 = Worker.saved s.
Proof.
  enough (H : Worker.saved (snd (Worker._click_next_page web el s)) = Worker.saved s).
  { split; [exact H|]. intros o s1 E. rewrite E in H. exact H. }
  unfold Worker._click_next_page. wsimpl.
  destruct (Worker.el_script_click_ok el || Worker.el_native_click_ok el).
  - unfold Worker.follow_click. destruct (Worker.el_target el); reflexivity.
  - destruct (Worker.el_href el) as [h|]; [|reflexivity].
    destruct (String.eqb h ""); [reflexivity|].
    unfold Worker.get. destruct (Worker.site_timeout web h); reflexivity.
Qed.

Lemma reviews_label_ge2 (n : nat) (u h : string) (l : list (string * string * string)) u' h' :
  In ("reviews_page_" ++ pretty n, u, h) ((("reviews_page_" ++ pretty 1%nat), u', h') :: l) ->
  (2 <= n)%nat -> In ("reviews_page_" ++ pretty n, u, h) l.
Proof.
  intros [E|Hin] Hn; [|exact Hin].
  exfalso. injection E as E _ _.
  repeat (injection E as E || apply (inj (String _)) in E).
  change (pretty 1%nat = pretty n) in E. apply (inj (pretty (A:=nat))) in E. lia.
Qed.

Lemma pagination_keeps_reviews_ok (web : Worker.site) (fuel : nat) :
  forall pn s, saved_reviews_ok web (Worker.saved s) ->
    saved_reviews_ok web (Worker.saved (snd (Worker.pagination_loop web fuel pn s))).
Proof.
  induction fuel as [|f IH]; intros pn s Hs; [exact Hs|].
  cbn [Worker.pagination_loop].
  destruct (pn <? Worker.MAX_REVIEW_PAGES)%nat; [|exact Hs].
  unfold Worker.bind at 1. unfold Worker.find_next, Worker.cur_page.
  destruct (Worker.pg_next (Worker.site_page web (Worker.cur_url s))) as [el|]; [|exact Hs].
  unfold Worker.bind at 1. unfold Worker._is_blocked_or_redirected.
  destruct (Worker.blocked_or_redirected_url (Worker.cur_url s)); [exact Hs|].
  unfold Worker.bind at 1.
  destruct (Worker._click_next_page web el s) as [o s1] eqn:Ec.
  pose proof (proj2 (click_next_keeps_saved web el s) _ _ Ec) as Hs1.
  destruct o as [[pre|]|e]; [|simpl; rewrite Hs1; exact Hs|simpl; rewrite Hs1; exact Hs].
  wsimpl.
  destruct (String.eqb (Worker.cur_url s1) pre) eqn:Eq; wsimpl; rewrite ?Eq; wsimpl;
    [rewrite Hs1; exact Hs|..].
  all: destruct (Worker.last_page_heuristic (Worker.pg_title (Worker.site_page web (Worker.cur_url s1)))
                   (Worker.pg_source (Worker.site_page web (Worker.cur_url s1)))) eqn:Hl;
    wsimpl; [rewrite Hs1; exact Hs|].
  all: apply IH; cbn [Worker.saved]; rewrite Hs1.
  all: intros n u h [E|Hin] Hn; [|exact (Hs n u h Hin Hn)].
  all: injection E as _ <- <-; exact Hl.
Qed.

Lemma reviews_ok_product (web : Worker.site) (u h : string) l :
  saved_reviews_ok web l -> saved_reviews_ok web (("product_page", u, h) :: l).
Proof.
  intros Hl n u' h' [E|Hin] Hn; [|exact (Hl n u' h' Hin Hn)].
  injection E as E _ _. discriminate E.
Qed.

Lemma reviews_ok_page1 (web : Worker.site) (u h : string) l :
  saved_reviews_ok web l ->
  saved_reviews_ok web (("reviews_page_1", u, h) :: l).
Proof.
  intros Hl n u' h' Hin Hn.
  apply (Hl n u' h'); [|exact Hn].
  exact (reviews_label_ge2 n u' h' l u h Hin Hn).
Qed.

(** C10: whatever the session serves, a run of [scrape_product_to_reviews]
    started with an output file holding no offending block leaves none: every
    block it saves under the label reviews_page_n with n >= 2 holds a page
    on which the last-page heuristic ("there are no customer reviews" in the
    source, "no reviews" in its first 5,000 characters, or "page not found" or
    "404" in the title) does not fire, because the loop checks the heuristic
    on the page it has advanced to and leaves before saving it. *)
Theorem C10_last_page_never_saved :
  forall (web : Worker.site) (url : string) (s0 : Worker.state),
    saved_reviews_ok web (Worker.saved s0) ->
    saved_reviews_ok web (Worker.saved (snd (Worker.scrape_product_to_reviews web url s0))).
Proof.
  intros web url s0 Hs.
  unfold Worker.scrape_product_to_reviews. unfold Worker.get at 1.
  destruct (Worker.site_timeout web url); [exact Hs|].
  wsimpl.
  destruct (Detection.check_for_blocks url (Worker.pg_source (Worker.site_page web url)))
    as [[|] r]; wsimpl; [exact Hs|].
  pose proof (reviews_ok_product web url (Worker.pg_source (Worker.site_page web url)) _ Hs)
    as Hp.
  destruct (Worker.pg_see_more (Worker.site_page web url)) as [el|]; wsimpl; [|exact Hp].
  destruct (Worker.el_href el) as [href|]; wsimpl; [|exact Hp].
  destruct (String.prefix "/" href); wsimpl.
  all: match goal with
       | |- context [Worker.get ?w ?u1] =>
           unfold Worker.get at 1; destruct (Worker.site_timeout w u1); wsimpl; [exact Hp|];
           destruct (Detection.check_for_blocks u1 (Worker.pg_source (Worker.site_page w u1)))
             as [[|] r']; wsimpl; [exact Hp|]
       end.
  all: unfold Worker.bind at 1.
  all: match goal with
       | |- context [Worker.pagination_loop ?w ?f 1 ?st] =>
           pose proof (pagination_keeps_reviews_ok w f 1 st) as HL;
           destruct (Worker.pagination_loop w f 1 st) as [o s3]
       end.
  all: destruct o; simpl in HL |- *; apply HL; cbn [Worker.saved]; apply reviews_ok_page1; exact Hp.
Qed.

(** The witness of C10: a session whose reviews page 3 says there are no
    reviews; page 3 is not saved. *)
Lemma C10_last_page_never_saved_witness :
  saved_reviews_ok C10_site
    (Worker.saved (snd (Worker.scrape_product_to_reviews C10_site C7_product C7_start))) /\
  map (fun '(l, _, _) => l)
    (Worker.saved (snd (Worker.scrape_product_to_reviews C10_site C7_product C7_start)))
    = ["reviews_page_2"; "reviews_page_1"; "product_page"].
Proof.
  split; [|vm_compute; reflexivity].
  apply (C10_last_page_never_saved C10_site C7_product C7_start).
  intros n u h Hin. destruct Hin.
Defined.

(** ** The page file *)

Module LoaderFacts.
Import Loader LoaderSpec.
Local Open Scope nat_scope.
Local Open Scope list_scope.

Lemma write_pages_chunks ps f : write_pages f ps = f ++ chunks ps.
Proof.
  unfold write_pages; revert f.
  induction ps as [|[[[l u] t] h] ps IH]; intros f; cbn [fold_left chunks].
  - now rewrite app_nil_r.
  - rewrite IH. unfold save_html_to_single_file. now rewrite <- !app_assoc.
Qed.

Lemma separator_header l u t h :
  separator l u t h = [nl; nl] ++ header l u t h ++ [nl; nl].
Proof.
  unfold separator, header, size_field.
  repeat (rewrite <- app_assoc || rewrite <- app_comm_cons). reflexivity.
Qed.

Lemma header_app l u t h rest :
  header l u t h ++ rest =
  rule80 ++ nl :: cs "PAGE:" ++ " "%char :: l ++ nl :: cs "URL:" ++ " "%char :: u ++
  nl :: cs "TIMESTAMP:" ++ " "%char :: t ++ nl :: cs "SIZE:" ++ " "%char ::
  size_field h ++ nl :: rule80 ++ rest.
Proof.
  unfold header. repeat (rewrite <- app_assoc || rewrite <- app_comm_cons). reflexivity.
Qed.

(** *** [strip] *)

Lemma lstrip_app x y :
  lstrip (x ++ y) = if forallb is_space x then lstrip y else lstrip x ++ y.
Proof.
  induction x as [|c x IH]; simpl; [reflexivity|].
  destruct (is_space c); simpl; auto.
Qed.

Lemma lstrip_spaces w : forallb is_space w = true -> lstrip w = [].
Proof.
  intros H. rewrite <- (app_nil_r w), lstrip_app, H. reflexivity.
Qed.

Lemma forallb_rev {A} (f : A -> bool) l : forallb f (rev l) = forallb f l.
Proof.
  induction l as [|a l IH]; simpl; [reflexivity|].
  rewrite forallb_app, IH. simpl. now rewrite andb_true_r, andb_comm.
Qed.

Lemma strip_spaces_around w1 h w2 :
  forallb is_space w1 = true -> forallb is_space w2 = true ->
  strip (w1 ++ h ++ w2) = strip h.
Proof.
  intros H1 H2. unfold strip.
  rewrite lstrip_app, H1, lstrip_app.
  destruct (forallb is_space h) eqn:Eh.
  - rewrite (lstrip_spaces w2 H2), (lstrip_spaces h Eh). reflexivity.
  - rewrite rev_app_distr, lstrip_app, forallb_rev, H2. reflexivity.
Qed.

(** *** The SIZE value *)

Definition plain (c : ascii) : bool := negb (is_space c) && negb (Ascii.eqb c nl).

Lemma digit_plain k : plain (digit k) = true.
Proof.
  unfold digit. do 10 (destruct k as [|k]; [reflexivity|]). destruct k; reflexivity.
Qed.

Lemma digits_rev_plain f n : forallb plain (digits_rev f n) = true.
Proof.
  revert n; induction f as [|f IH]; intros n; cbn [digits_rev forallb]; [reflexivity|].
  rewrite digit_plain. destruct (n / 10 =? 0); simpl; auto.
Qed.

Lemma group3_plain r i : forallb plain r = true -> forallb plain (group3 r i) = true.
Proof.
  revert i; induction r as [|c r IH]; intros i H; cbn [group3 forallb] in *; [reflexivity|].
  apply andb_prop in H as [Hc Hr]. rewrite Hc.
  destruct r as [|c' r']; [reflexivity|].
  destruct (S i mod 3 =? 0); cbn [forallb andb]; rewrite IH; auto.
Qed.

Lemma thousands_plain n : forallb plain (thousands n) = true.
Proof.
  unfold thousands. rewrite forallb_rev. apply group3_plain, digits_rev_plain.
Qed.

Lemma thousands_nonempty n : thousands n <> [].
Proof.
  unfold thousands. cbn [digits_rev group3].
  intros E. apply (f_equal (@length ascii)) in E. rewrite length_rev in E.
  discriminate.
Qed.

Lemma size_field_ok h : field_ok (size_field h) = true.
Proof.
  unfold size_field, field_ok.
  pose proof (thousands_plain (length h)) as P.
  pose proof (thousands_nonempty (length h)) as N.
  destruct (thousands (length h)) as [|c x]; [congruence|].
  simpl in P |- *. apply andb_prop in P as [Pc Px]. unfold plain in Pc.
  apply andb_prop in Pc as [Pc1 Pc2]. rewrite Pc1, Pc2. simpl.
  rewrite forallb_app. apply andb_true_intro; split; [|reflexivity].
  apply forallb_forall. intros a Ha.
  apply (proj1 (forallb_forall _ _) Px) in Ha. unfold plain in Ha.
  now apply andb_prop in Ha as [_ Ha].
Qed.

(** *** Matching [PAGE_HEADER] *)

Lemma strip_prefix_self l s : strip_prefix l (l ++ s) = Some s.
Proof. induction l as [|a l IH]; simpl; [reflexivity|]. now rewrite Ascii.eqb_refl. Qed.

Lemma match_lit_self l p caps s : match_at (Lit l :: p) caps (l ++ s) = match_at p caps s.
Proof. cbn [match_at]. now rewrite strip_prefix_self. Qed.

Lemma ws_star_one {X} (k : chars -> option X) c t x :
  is_space c = false -> k (c :: t) = Some x -> ws_star k (" "%char :: c :: t) = Some x.
Proof. intros Hc Hk. cbn [ws_star]. rewrite Hc, Hk. reflexivity. Qed.

(** The lazy group takes a newline-free word up to the next newline, when
    the rest of the pattern needs a newline to go on. *)
Lemma lazy_group_word {X} (k : chars -> chars -> option X) acc w rest :
  w <> [] -> forallb (fun c => negb (Ascii.eqb c nl)) w = true ->
  (forall p c s, Ascii.eqb c nl = false -> k p (c :: s) = None) ->
  lazy_group k acc (w ++ nl :: rest) = k (rev acc ++ w) (nl :: rest).
Proof.
  intros Hw Hnl Hk. revert acc Hw Hnl.
  induction w as [|c w IH]; intros acc Hw Hnl; [congruence|].
  cbn [forallb] in Hnl. apply andb_prop in Hnl as [Hc Hnl].
  apply negb_true_iff in Hc.
  cbn [app lazy_group]. rewrite Hc.
  destruct w as [|c' w'].
  - cbn [app]. simpl rev. destruct (k (rev acc ++ [c]) (nl :: rest)); [reflexivity|].
    cbn [lazy_group]. rewrite Ascii.eqb_refl. reflexivity.
  - cbn [forallb] in Hnl. pose proof Hnl as Hnl'.
    apply andb_prop in Hnl' as [Hc' _]. apply negb_true_iff in Hc'.
    cbn [app]. rewrite Hk by exact Hc'.
    change (c' :: w' ++ nl :: rest) with ((c' :: w') ++ nl :: rest).
    rewrite IH by (discriminate || exact Hnl).
    simpl rev. now rewrite <- app_assoc.
Qed.

Lemma lit_nl_fails key p caps c s :
  Ascii.eqb c nl = false -> match_at (Lit (nl :: key) :: p) caps (c :: s) = None.
Proof. intros H. cbn [match_at strip_prefix]. now rewrite Ascii.eqb_sym, H. Qed.

(** One line [key: value] of the header. *)
Lemma field_step p caps key f rest x :
  field_ok f = true ->
  (forall caps' c s, Ascii.eqb c nl = false -> match_at p caps' (c :: s) = None) ->
  match_at p (caps ++ [f]) (nl :: rest) = Some x ->
  match_at (Lit (nl :: key) :: Ws :: Cap :: p) caps
           (nl :: key ++ " "%char :: f ++ nl :: rest) = Some x.
Proof.
  intros Hf Hp Hx. destruct f as [|c f']; [discriminate|].
  unfold field_ok in Hf. apply andb_prop in Hf as [Hc Hnl].
  apply negb_true_iff in Hc.
  cbn [match_at strip_prefix]. rewrite Ascii.eqb_refl, strip_prefix_self.
  apply ws_star_one; [exact Hc|].
  cbn [match_at].
  refine (eq_trans (lazy_group_word _ [] (c :: f') rest _ Hnl _) _).
  - discriminate.
  - intros; apply Hp; assumption.
  - exact Hx.
Qed.

Lemma header_match l u t h rest :
  field_ok l = true -> field_ok u = true -> field_ok t = true ->
  match_at PAGE_HEADER [] (header l u t h ++ rest) = Some ([l; u; t; size_field h], rest).
Proof.
  intros Hl Hu Ht. rewrite header_app. unfold PAGE_HEADER.
  rewrite match_lit_self.
  apply field_step; [exact Hl | intros; now apply lit_nl_fails |].
  apply field_step; [exact Hu | intros; now apply lit_nl_fails |].
  apply field_step; [exact Ht | intros; now apply lit_nl_fails |].
  apply field_step; [apply size_field_ok | intros; now apply lit_nl_fails |].
  cbn [match_at strip_prefix]. rewrite Ascii.eqb_refl, strip_prefix_self. reflexivity.
Qed.

Lemma header_needs_rule s :
  strip_prefix rule80 s = None -> match_at PAGE_HEADER [] s = None.
Proof. intros H. unfold PAGE_HEADER. cbn [match_at]. now rewrite H. Qed.

(** *** [finditer] *)

Lemma finditer_skip x B pos : finditer (x ++ B) pos (length x) = finditer B (pos + length x) 0.
Proof.
  revert pos; induction x as [|c x IH]; intros pos.
  - now rewrite Nat.add_0_r.
  - cbn [app length finditer]. rewrite IH. f_equal. lia.
Qed.

Lemma finditer_match H rest caps pos :
  H <> [] -> match_at PAGE_HEADER [] (H ++ rest) = Some (caps, rest) ->
  finditer (H ++ rest) pos 0 = (pos, pos + length H, caps) :: finditer rest (pos + length H) 0.
Proof.
  intros HH Hm. destruct H as [|c H']; [congruence|].
  cbn [app] in Hm |- *. cbn [finditer]. rewrite Hm.
  replace (length (c :: H' ++ rest) - length rest) with (S (length H'))
    by (cbn [length]; rewrite length_app; lia).
  rewrite Nat.sub_succ, Nat.sub_0_r, finditer_skip. cbn [length].
  replace (S pos + length H') with (pos + S (length H')) by lia. reflexivity.
Qed.

Lemma finditer_nl s pos : finditer (nl :: s) pos 0 = finditer s (S pos) 0.
Proof. cbn [finditer]. rewrite header_needs_rule by reflexivity. reflexivity. Qed.

Lemma finditer_nomatch A B pos :
  (forall A1 A2, A = A1 ++ A2 -> A2 <> [] -> match_at PAGE_HEADER [] (A2 ++ B) = None) ->
  finditer (A ++ B) pos 0 = finditer B (pos + length A) 0.
Proof.
  revert pos; induction A as [|c A IH]; intros pos H.
  - now rewrite Nat.add_0_r.
  - pose proof (H [] (c :: A) eq_refl ltac:(discriminate)) as H0. cbn [app] in H0.
    cbn [app finditer]. rewrite H0, IH.
    + f_equal. cbn [length]. lia.
    + intros A1 A2 E N. apply (H (c :: A1) A2); [now rewrite E | exact N].
Qed.

Lemma has_rule_suffix A1 A2 : has_rule (A1 ++ A2) = false -> has_rule A2 = false.
Proof.
  induction A1 as [|c A1 IH]; intros H; [exact H|].
  cbn [app has_rule] in H. destruct (strip_prefix rule80 _); [discriminate|]. auto.
Qed.

Lemma rule_prefix_nl n x y :
  strip_prefix (repeat "="%char n) x = None ->
  strip_prefix (repeat "="%char n) (x ++ nl :: y) = None.
Proof.
  revert n; induction x as [|c x IH]; intros n H.
  - destruct n; [discriminate|]. reflexivity.
  - destruct n; [discriminate|]. cbn [repeat strip_prefix app] in H |- *.
    destruct (Ascii.eqb "=" c); [auto|reflexivity].
Qed.

(** No match starts in [A] when [A] holds no rule and is followed by a
    newline or by nothing. *)
Lemma no_rule_no_match A B :
  has_rule A = false -> (B = [] \/ exists B', B = nl :: B') ->
  forall A1 A2, A = A1 ++ A2 -> A2 <> [] -> match_at PAGE_HEADER [] (A2 ++ B) = None.
Proof.
  intros HA HB A1 A2 E N. apply header_needs_rule.
  subst A. apply has_rule_suffix in HA.
  destruct A2 as [|c A2']; [congruence|].
  cbn [has_rule] in HA. destruct (strip_prefix rule80 (c :: A2')) eqn:Es; [discriminate|].
  destruct HB as [-> | [B' ->]].
  - now rewrite app_nil_r.
  - apply rule_prefix_nl, Es.
Qed.

(** *** The appended blocks *)

Lemma header_nonempty l u t h : header l u t h <> [].
Proof. unfold header, rule80. cbn [repeat app]. discriminate. Qed.

Lemma chunks_start r : chunks r = [] \/ exists B, chunks r = nl :: B.
Proof.
  destruct r as [|[[[l u] t] h] r]; [now left|right].
  cbn [chunks]. rewrite separator_header. eexists. reflexivity.
Qed.

Lemma pages_ok_cons l u t h r :
  pages_ok ((l, u, t, h) :: r) = true ->
  field_ok l = true /\ field_ok u = true /\ field_ok t = true /\
  has_rule h = false /\ pages_ok r = true.
Proof.
  unfold pages_ok. cbn [forallb]. intros H.
  repeat match goal with H : _ && _ = true |- _ => apply andb_prop in H as [? ?] end.
  repeat split; auto. now apply negb_true_iff.
Qed.

Lemma finditer_chunks ps pos :
  pages_ok ps = true -> finditer (chunks ps) pos 0 = seps_of ps pos.
Proof.
  revert pos; induction ps as [|[[[l u] t] h] r IH]; intros pos Hok; [reflexivity|].
  apply pages_ok_cons in Hok as (Hl & Hu & Ht & Hh & Hr).
  cbn [chunks seps_of]. rewrite separator_header, <- !app_assoc.
  cbn [app]. rewrite !finditer_nl.
  rewrite (finditer_match (header l u t h) _ [l; u; t; size_field h]) by (apply header_nonempty || now apply header_match).
  rewrite !finditer_nl, finditer_nomatch by (apply no_rule_no_match; [exact Hh | apply chunks_start]).
  rewrite IH by exact Hr.
  set (L := length (header l u t h)).
  replace (pos + 2) with (S (S pos)) by lia.
  replace (S (S pos) + L + 2 + length h) with (S (S (S (S pos) + L)) + length h) by lia.
  reflexivity.
Qed.

Lemma slice_app X Y b : slice (length X) b (X ++ Y) = firstn (b - length X) Y.
Proof.
  unfold slice. f_equal. induction X as [|a X IH]; [reflexivity|]. exact IH.
Qed.

Lemma firstn_len_app (A B : chars) n : firstn (length A + n) (A ++ B) = A ++ firstn n B.
Proof. induction A as [|a A IH]; [reflexivity|]. cbn. now rewrite IH. Qed.

Lemma pages_of_chunks ps P :
  pages_ok ps = true ->
  pages_of (P ++ chunks ps) (seps_of ps (length P)) = read_back ps.
Proof.
  revert P; induction ps as [|[[[l u] t] h] r IH]; intros P Hok; [reflexivity|].
  apply pages_ok_cons in Hok as (_ & _ & _ & _ & Hr).
  set (X := P ++ [nl; nl] ++ header l u t h).
  assert (Eraw : P ++ chunks ((l, u, t, h) :: r) = X ++ [nl; nl] ++ h ++ chunks r).
  { unfold X. cbn [chunks]. rewrite separator_header. now rewrite <- !app_assoc. }
  assert (EX : length X = length P + 2 + length (header l u t h)).
  { unfold X. rewrite !length_app. cbn [length]. lia. }
  assert (Erest : X ++ [nl; nl] ++ h ++ chunks r = (X ++ [nl; nl] ++ h) ++ chunks r).
  { now rewrite <- !app_assoc. }
  assert (EX' : length (X ++ [nl; nl] ++ h) =
                length P + 2 + length (header l u t h) + 2 + length h).
  { rewrite !length_app, EX. cbn [length]. lia. }
  rewrite Eraw. cbn [seps_of pages_of read_back]. f_equal.
  - f_equal. rewrite <- EX, slice_app.
    destruct r as [|[[[l2 u2] t2] h2] r'].
    + cbn [seps_of chunks]. rewrite !length_app.
      replace (length X + (length [nl; nl] + (length h + length (@nil ascii))) - length X)
        with (length ([nl; nl] ++ h ++ [])) by (rewrite !length_app; lia).
      rewrite firstn_all. now apply strip_spaces_around.
    + cbn [seps_of].
      replace (length X + 2 + length h + 2 - length X)
        with (length ([nl; nl] ++ h) + 2) by (rewrite length_app; cbn [length]; lia).
      rewrite app_assoc, firstn_len_app.
      replace (firstn 2 (chunks ((l2, u2, t2, h2) :: r'))) with [nl; nl]
        by (cbn [chunks]; rewrite separator_header; reflexivity).
      rewrite <- app_assoc. now apply strip_spaces_around.
  - rewrite Erest, <- EX'. now apply IH.
Qed.

End LoaderFacts.

(** C6: the page file. The counterexample: an HTML text that itself carries
    a header block is read back as two pages, and leading whitespace of an
    HTML text does not survive. *)
Lemma C6_embedded_header_and_whitespace :
  length C6_pages = 2%nat /\
  map Loader.label (Loader.split_pages (Loader.write_pages [] C6_pages)) =
    [Loader.cs "product_page"; Loader.cs "fake"; Loader.cs "reviews_page_1"] /\
  map Loader.soup (Loader.split_pages (Loader.write_pages [] C6_pages)) =
    [Loader.cs "<p>"; Loader.cs "</p>"; Loader.cs "<html>x</html>"].
Proof. split; [reflexivity|]. split; vm_compute; reflexivity. Qed.

(** C6: a file with no header match is one page [full_file] with the whole
    input; in particular a file without a run of 80 '='.  A file made of an
    initial text without such a run followed by N >= 1 appended pages, each
    with non-empty, newline-free metadata not starting with whitespace and
    an HTML text without a run of 80 '=', is read back as exactly those N
    pages in order, with label, URL, timestamp and HTML each stripped. *)
Theorem C6_page_file_round_trip :
  (forall raw, Loader.finditer raw 0 0 = [] ->
     Loader.split_pages raw = [Loader.mk_page (Loader.cs "full_file") [] [] raw]) /\
  (forall raw, LoaderSpec.has_rule raw = false ->
     Loader.split_pages raw = [Loader.mk_page (Loader.cs "full_file") [] [] raw]) /\
  (forall init ps, LoaderSpec.has_rule init = false -> LoaderSpec.pages_ok ps = true ->
     ps <> [] ->
     Loader.split_pages (Loader.write_pages init ps) = LoaderSpec.read_back ps).
Proof.
  assert (Hnone : forall raw, Loader.finditer raw 0 0 = [] ->
     Loader.split_pages raw = [Loader.mk_page (Loader.cs "full_file") [] [] raw]).
  { intros raw H. unfold Loader.split_pages. now rewrite H. }
  split; [exact Hnone|]. split.
  - intros raw H. apply Hnone.
    pose proof (LoaderFacts.finditer_nomatch raw [] 0) as F.
    rewrite app_nil_r in F. rewrite F; [reflexivity|].
    apply LoaderFacts.no_rule_no_match; [exact H | now left].
  - intros init ps Hi Hok Hne.
    rewrite LoaderFacts.write_pages_chunks. unfold Loader.split_pages.
    rewrite LoaderFacts.finditer_nomatch
      by (apply LoaderFacts.no_rule_no_match; [exact Hi | apply LoaderFacts.chunks_start]).
    rewrite LoaderFacts.finditer_chunks by exact Hok. rewrite Nat.add_0_l.
    destruct (LoaderSpec.seps_of ps (length init)) as [|sp sps] eqn:Es.
    + destruct ps as [|[[[l u] t] h] ps]; [congruence | discriminate].
    + rewrite <- Es. now apply LoaderFacts.pages_of_chunks.
Qed.

Lemma C6_page_file_round_trip_witness :
  Loader.split_pages (Loader.write_pages [] C6_ok_pages) = LoaderSpec.read_back C6_ok_pages /\
  Loader.split_pages (Loader.cs "<html></html>") =
    [Loader.mk_page (Loader.cs "full_file") [] [] (Loader.cs "<html></html>")].
Proof.
  split.
  - apply (proj2 (proj2 C6_page_file_round_trip)); [reflexivity | vm_compute; reflexivity | discriminate].
  - apply (proj1 (proj2 C6_page_file_round_trip)). vm_compute. reflexivity.
Defined.

(* ================================================================== *)
(** * Further properties of the code *)

(** ** String facts *)

Module StringFacts.

Lemma prefix_app (p s : string) : String.prefix p (p ++ s) = true.
Proof.
  induction p as [|c p IH]; [destruct s; reflexivity|].
  simpl. destruct (ascii_dec c c); [exact IH | congruence].
Qed.

Lemma prefix_ex (p s : string) : String.prefix p s = true -> exists b, s = p ++ b.
Proof.
  revert s; induction p as [|c p IH]; intros s H; [now exists s|].
  destruct s as [|d s]; [discriminate|]. cbn [String.prefix] in H.
  destruct (ascii_dec c d) as [<-|]; [|discriminate].
  destruct (IH s H) as [b ->]. now exists b.
Qed.

Lemma contains_prefix (p s : string) : String.prefix p s = true -> contains p s = true.
Proof. intros H. destruct s; cbn [contains]; now rewrite H. Qed.

Lemma contains_ex (p s : string) : contains p s = true <-> exists a b, s = a ++ p ++ b.
Proof.
  split.
  - induction s as [|c s IH]; intros H; cbn [contains] in H;
      apply orb_true_iff in H as [H|H].
    + destruct (prefix_ex _ _ H) as [b Hb]. destruct p; [|discriminate].
      exists "", "". reflexivity.
    + discriminate.
    + destruct (prefix_ex _ _ H) as [b ->]. now exists "", b.
    + destruct (IH H) as (a & b & ->). now exists (String c a), b.
  - intros (a & b & ->). induction a as [|c a IH].
    + exact (contains_prefix _ _ (prefix_app p b)).
    + simpl. now rewrite IH, orb_true_r.
Qed.

Lemma str_app_cons x (a b : string) : String x a ++ b = String x (a ++ b).
Proof. reflexivity. Qed.

Lemma str_app_assoc (a b c : string) : (a ++ b) ++ c = a ++ b ++ c.
Proof. induction a as [|x a IH]; [reflexivity|]. now rewrite !str_app_cons, IH. Qed.

Lemma lower_app (a b : string) : lower (a ++ b) = lower a ++ lower b.
Proof. induction a as [|c a IH]; [reflexivity|]. rewrite str_app_cons. simpl. now rewrite IH. Qed.

Lemma contains_lower (p s : string) :
  contains p s = true -> contains (lower p) (lower s) = true.
Proof.
  intros H. apply contains_ex in H as (a & b & ->). apply contains_ex.
  exists (lower a), (lower b). now rewrite !lower_app.
Qed.

Lemma contains_trans (p q s : string) :
  contains p q = true -> contains q s = true -> contains p s = true.
Proof.
  intros H1 H2. apply contains_ex in H1 as (a1 & b1 & ->).
  apply contains_ex in H2 as (a2 & b2 & ->). apply contains_ex.
  exists (a2 ++ a1), (b1 ++ b2). now rewrite !str_app_assoc.
Qed.

End StringFacts.

(** ** Proxy strings *)

Module ProxyFacts.
Import ProxyManager.

Lemma count_colons_cons c t :
  count_colons (String c t) = 0 -> Ascii.eqb c ":" = false /\ count_colons t = 0.
Proof. cbn [count_colons]. destruct (Ascii.eqb c ":"); [discriminate|auto]. Qed.

Lemma split_parts_free a : count_colons a = 0 -> split_parts ":" a = (a, []).
Proof.
  induction a as [|c a IH]; intros H; [reflexivity|].
  apply count_colons_cons in H as [Hc Ha]. cbn [split_parts]. now rewrite IH, Hc.
Qed.

Lemma split_parts_colon a r :
  count_colons a = 0 -> split_parts ":" (a ++ ":" ++ r) = (a, str_split ":" r).
Proof.
  induction a as [|c a IH]; intros H.
  - change ("" ++ ":" ++ r) with (String ":" r). cbn [split_parts].
    unfold str_split. destruct (split_parts ":" r). reflexivity.
  - apply count_colons_cons in H as [Hc Ha]. rewrite StringFacts.str_app_cons.
    cbn [split_parts]. rewrite (IH Ha), Hc. reflexivity.
Qed.

Lemma str_split_free a : count_colons a = 0 -> str_split ":" a = [a].
Proof. intros H. unfold str_split. now rewrite split_parts_free. Qed.

Lemma str_split_colon a r :
  count_colons a = 0 -> str_split ":" (a ++ ":" ++ r) = a :: str_split ":" r.
Proof. intros H. unfold str_split at 1. now rewrite split_parts_colon. Qed.

Lemma split_parts_length s : length (snd (split_parts ":" s)) = count_colons s.
Proof.
  induction s as [|c s IH]; [reflexivity|]. cbn [split_parts count_colons].
  destruct (split_parts ":" s) as [p ps]. cbn [snd] in IH.
  destruct (Ascii.eqb c ":"); cbn [snd length]; lia.
Qed.

Lemma str_split_length s : length (str_split ":" s) = S (count_colons s).
Proof.
  unfold str_split. pose proof (split_parts_length s) as H.
  destruct (split_parts ":" s). cbn [snd] in H. cbn [length]. now rewrite H.
Qed.

Lemma colon_nonempty a r : String.eqb (a ++ ":" ++ r) "" = false.
Proof. now destruct a. Qed.

End ProxyFacts.

(** The two proxy formats of [ProxyManager]: for fields without a colon,
    [get_proxy_dict] maps "ip:port" to [http://ip:port] and
    "ip:port:user:pass" to [http://user:pass@ip:port] (the same URL for
    "http" and "https"), while [get_chrome_proxy_arg] gives
    [--proxy-server=ip:port] for both, leaving out the credentials. *)
Theorem proxy_formats (ip port user password : string) :
  ProxyManager.count_colons ip = 0 -> ProxyManager.count_colons port = 0 ->
  ProxyManager.count_colons user = 0 -> ProxyManager.count_colons password = 0 ->
  ProxyManager.get_proxy_dict (Some (ip ++ ":" ++ port)) =
    Some [("http", "http://" ++ (ip ++ ":" ++ port)); ("https", "http://" ++ (ip ++ ":" ++ port))] /\
  ProxyManager.get_chrome_proxy_arg (Some (ip ++ ":" ++ port)) =
    Some ("--proxy-server=" ++ ip ++ ":" ++ port) /\
  ProxyManager.get_proxy_dict (Some (ip ++ ":" ++ port ++ ":" ++ user ++ ":" ++ password)) =
    Some [("http", "http://" ++ user ++ ":" ++ password ++ "@" ++ ip ++ ":" ++ port);
          ("https", "http://" ++ user ++ ":" ++ password ++ "@" ++ ip ++ ":" ++ port)] /\
  ProxyManager.get_chrome_proxy_arg (Some (ip ++ ":" ++ port ++ ":" ++ user ++ ":" ++ password)) =
    Some ("--proxy-server=" ++ ip ++ ":" ++ port).
Proof.
  intros Hi Hp Hu Hw.
  unfold ProxyManager.get_proxy_dict, ProxyManager.get_chrome_proxy_arg.
  rewrite !ProxyFacts.colon_nonempty.
  rewrite !ProxyFacts.str_split_colon, !ProxyFacts.str_split_free by assumption.
  repeat split; reflexivity.
Qed.

Lemma proxy_formats_witness :
  ProxyManager.get_chrome_proxy_arg (Some ("10.0.0.1" ++ ":" ++ "8080" ++ ":" ++ "user" ++ ":" ++ "secret"))
    = Some "--proxy-server=10.0.0.1:8080".
Proof.
  refine (proj2 (proj2 (proj2 (proxy_formats "10.0.0.1" "8080" "user" "secret"
            eq_refl eq_refl eq_refl eq_refl)))).
Defined.

(** [get_proxy_dict] returns a dict exactly for a proxy string with one or
    three colons (two or four parts); any other string, the empty string
    included, gives [None]. *)
Theorem get_proxy_dict_parts (p : string) :
  ProxyManager.get_proxy_dict (Some p) <> None <->
  ProxyManager.count_colons p = 1 \/ ProxyManager.count_colons p = 3.
Proof.
  unfold ProxyManager.get_proxy_dict.
  destruct (String.eqb_spec p "") as [->|Hne]; [cbn; split; [congruence | lia]|].
  pose proof (ProxyFacts.str_split_length p) as L.
  destruct (ProxyManager.str_split ":" p) as [|a [|b [|c [|d [|e l]]]]];
    cbn [length] in L; split; intros Hx; try congruence; try lia; discriminate.
Qed.

(** [get_chrome_proxy_arg] returns an argument exactly when the proxy is a
    non-empty string containing a colon, the condition [has_chrome_proxy_arg]
    under which [start_driver] passes a proxy to Chrome. *)
Theorem get_chrome_proxy_arg_defined (p : string) :
  ProxyManager.get_chrome_proxy_arg (Some p) <> None <->
  ProxyManager.has_chrome_proxy_arg p = true.
Proof.
  unfold ProxyManager.get_chrome_proxy_arg, ProxyManager.has_chrome_proxy_arg.
  destruct (String.eqb_spec p "") as [->|Hne]; [cbn; split; congruence|].
  cbn [negb andb]. pose proof (ProxyFacts.str_split_length p) as L.
  destruct (Nat.leb_spec 1 (ProxyManager.count_colons p));
  destruct (ProxyManager.str_split ":" p) as [|a [|b l]];
    cbn [length] in L; split; intros Hx; try congruence; try lia; discriminate.
Qed.

(** [CaptchaDetector._silent_captcha_check] agrees with the flag returned by
    [is_captcha_present]. *)
Theorem silent_captcha_check_agrees (d : snapshot) :
  CaptchaDetector._silent_captcha_check d = fst (CaptchaDetector.is_captcha_present d).
Proof.
  unfold CaptchaDetector._silent_captcha_check, CaptchaDetector.is_captcha_present,
    CaptchaDetector.url_check, CaptchaDetector.title_check, CaptchaDetector.element_check,
    CaptchaDetector.text_check, CaptchaDetector.small_page_check.
  cbv zeta. destruct (String.length (lower (page_source d)) <? 10000)%nat; cbn [andb].
  all: repeat match goal with |- context [if ?b then _ else _] => destruct b end; reflexivity.
Qed.

(** ** Block detection *)

(** [check_for_blocks] only ever returns [(False, None)] or
    [(True, reason)] with a reason; it passes a page exactly when the
    lower-cased URL contains none of "/ap/signin", "/ap/register" and
    "captcha", the lower-cased source contains none of the CAPTCHA
    indicators, and the source has at least 5000 characters. *)
Theorem check_for_blocks_outcomes (url source : string) :
  (Detection.check_for_blocks url source = (false, None) \/
   exists r, Detection.check_for_blocks url source = (true, Some r)) /\
  (fst (Detection.check_for_blocks url source) = false <->
   contains "/ap/signin" (lower url) = false /\ contains "/ap/register" (lower url) = false /\
   contains "captcha" (lower url) = false /\
   (forall i, In i Detection._CAPTCHA_INDICATORS -> contains i (lower source) = false) /\
   (5000 <= String.length source)%nat).
Proof.
  unfold Detection.check_for_blocks. cbv zeta. split.
  - destruct (_ || _); [right; eauto|]. destruct (contains "captcha" _); [right; eauto|].
    destruct (first_match _ _); [right; eauto|].
    destruct (_ <? _)%nat; [right; eauto | left; reflexivity].
  - split.
    + destruct (contains "/ap/signin" (lower url)), (contains "/ap/register" (lower url));
        cbn [orb]; try discriminate.
      destruct (contains "captcha" (lower url)); [discriminate|].
      destruct (first_match _ _) eqn:Ef; [discriminate|].
      destruct (Nat.ltb_spec (String.length (lower source)) 5000); [discriminate|].
      intros _. rewrite lower_length in *. repeat split; auto.
      intros i Hi. destruct (contains i (lower source)) eqn:Ei; [|reflexivity].
      destruct (first_match_some (fun i => contains i (lower source)) _ i Hi Ei) as [y Hy].
      congruence.
    + intros (-> & -> & -> & Hi & Hl). cbn [orb].
      rewrite (first_match_none (fun i => contains i (lower source))) by exact Hi.
      rewrite lower_length.
      destruct (Nat.ltb_spec (String.length source) 5000); [lia | reflexivity].
Qed.

(** Every URL at which the pagination loop's [_is_blocked_or_redirected]
    stops is also flagged by [check_for_blocks], whatever the page source. *)
Theorem blocked_url_flagged (u source : string) :
  Worker.blocked_or_redirected_url u = true ->
  fst (Detection.check_for_blocks u source) = true.
Proof.
  unfold Worker.blocked_or_redirected_url, Detection.check_for_blocks. cbv zeta.
  intros H. apply orb_true_iff in H as [H|H]; [apply orb_true_iff in H as [H|H]|].
  - apply StringFacts.contains_lower in H.
    assert (Hc : contains "captcha" (lower u) = true)
      by exact (StringFacts.contains_trans "captcha" (lower "/errors/validateCaptcha") _ eq_refl H).
    destruct (_ || _); [reflexivity|]. now rewrite Hc.
  - destruct (_ || _); [reflexivity|]. now rewrite H.
  - apply StringFacts.contains_lower in H. change (lower "/ap/signin") with "/ap/signin" in H.
    now rewrite H.
Qed.

Lemma blocked_url_flagged_witness :
  Worker.blocked_or_redirected_url "https://www.amazon.in/ap/signin?openid=x" = true /\
  fst (Detection.check_for_blocks "https://www.amazon.in/ap/signin?openid=x" "") = true.
Proof.
  split; [reflexivity|]. apply blocked_url_flagged. reflexivity.
Defined.

(** ** Throttle spacing *)

(** One [ThrottleManager.wait()]: it always counts the request; it raises
    [ZeroDivisionError] only when [burst_threshold] is 0; otherwise it sleeps
    a non-negative time, records a request time no earlier than the clock,
    and places that time at least the base delay times the updated
    multiplier after the previously recorded one. *)
Theorem throttle_wait_spacing (u now : Q) (th : Throttle.t) :
  Throttle.request_count (snd (Throttle.wait u now th)) = (Throttle.request_count th + 1)%Z /\
  match Throttle.wait u now th with
  | (Throttle.Slept t, th') =>
      (0 <= t /\ now <= Throttle.last_request_time th' /\
       Throttle.last_request_time th +
         (Throttle.min_delay th + (Throttle.max_delay th - Throttle.min_delay th) * u)
           * Throttle.backoff_multiplier th'
       <= Throttle.last_request_time th')%Q
  | (Throttle.ZeroDivisionError, _) => Throttle.burst_threshold th = 0%Z
  end.
Proof.
  unfold Throttle.wait. cbv zeta.
  destruct (Z.eqb_spec (Throttle.burst_threshold th) 0) as [H0|H0]; [split; [reflexivity | exact H0]|].
  split; [reflexivity|]. cbn [Throttle.last_request_time Throttle.backoff_multiplier].
  set (m := if Z.eqb _ _ then _ else _).
  set (a := ((Throttle.min_delay th + (Throttle.max_delay th - Throttle.min_delay th) * u) * m)%Q).
  destruct (Qlt_le_dec (now - Throttle.last_request_time th)%Q a); lra.
Qed.

(** ** The scraper's output blocks and counters *)

Module ScrapeFacts.

Lemma app_nil s0 : appended s0 (Worker.saved s0) (Worker.total_pages s0) (Worker.total_bytes s0) [].
Proof. exists []. unfold html_bytes. cbn. repeat split; (reflexivity || lia). Qed.

Lemma app_save s0 sv tp tb L l u h :
  appended s0 sv tp tb L ->
  appended s0 ((l, u, h) :: sv) (S tp) (tb + String.length h) (L ++ [l]).
Proof.
  intros (new & -> & HL & -> & ->). exists ((l, u, h) :: new).
  split; [reflexivity|]. split.
  - cbn [rev]. now rewrite map_app, HL.
  - unfold html_bytes, list_sum. cbn [length map fold_right]. split; lia.
Qed.

Lemma click_next_store (web : Worker.site) (el : Worker.element) (s s1 : Worker.state) o :
  Worker._click_next_page web el s = (o, s1) ->
  Worker.saved s1 = Worker.saved s /\ Worker.total_pages s1 = Worker.total_pages s /\
  Worker.total_bytes s1 = Worker.total_bytes s /\
  (forall e, o = Worker.Raised e -> e = "TimeoutException").
Proof.
  unfold Worker._click_next_page. wsimpl.
  destruct (Worker.el_script_click_ok el || Worker.el_native_click_ok el).
  - unfold Worker.follow_click. destruct (Worker.el_target el); intros [= <- <-]; cbn;
      repeat split; congruence.
  - destruct (Worker.el_href el) as [h|]; [|intros [= <- <-]; cbn; repeat split; congruence].
    destruct (String.eqb h ""); [intros [= <- <-]; cbn; repeat split; congruence|].
    unfold Worker.get. destruct (Worker.site_timeout web h); intros [= <- <-]; cbn;
      repeat split; congruence.
Qed.

Lemma firstn_seq_le j a n : (j <= n)%nat -> firstn j (seq a n) = seq a j.
Proof.
  revert a n; induction j as [|j IH]; intros a n H; [reflexivity|].
  destruct n as [|n]; [lia|]. cbn [firstn seq]. rewrite IH by lia. reflexivity.
Qed.

Ltac wsimpl_in H :=
  cbn -[Worker.pagination_loop Detection.check_for_blocks String.prefix
        String.append pretty Worker.site_page] in H;
  unfold Worker.cur_page in H; cbn [Worker.cur_url Worker.emit Worker.saved] in H.

Ltac loop_exit H Hs :=
  injection H as <- <-; exists 0%nat; split; [now left|]; cbn [seq map]; rewrite app_nil_r;
  split; [cbn [Worker.saved Worker.total_pages Worker.total_bytes Worker.emit]; exact Hs
         | intros ? [=]].

Ltac loop_exit_after H Hs Hs1 Hp1 Hb1 :=
  injection H as <- <-; exists 0%nat; split; [now left|]; cbn [seq map]; rewrite app_nil_r;
  split; [cbn [Worker.saved Worker.total_pages Worker.total_bytes Worker.emit];
          rewrite Hs1, Hp1, Hb1; exact Hs
         | intros ? [=]].

Lemma pagination_appends (web : Worker.site) (s0 : Worker.state) (fuel : nat) :
  forall pn s L r s',
  appended s0 (Worker.saved s) (Worker.total_pages s) (Worker.total_bytes s) L ->
  Worker.pagination_loop web fuel pn s = (r, s') ->
  exists j, (j = 0 \/ pn + j <= Worker.MAX_REVIEW_PAGES)%nat /\
    appended s0 (Worker.saved s') (Worker.total_pages s') (Worker.total_bytes s')
      (app L (map (fun n => "reviews_page_" ++ pretty n) (seq (S pn) j))) /\
    (forall e, r = Worker.Raised e -> e = "TimeoutException").
Proof.
  induction fuel as [|f IH]; intros pn s L r s' Hs H.
  { cbn [Worker.pagination_loop] in H. unfold Worker.ret in H. loop_exit H Hs. }
  cbn [Worker.pagination_loop] in H.
  destruct (pn <? Worker.MAX_REVIEW_PAGES)%nat eqn:Hlt;
    [|unfold Worker.ret in H; loop_exit H Hs].
  apply Nat.ltb_lt in Hlt.
  unfold Worker.bind at 1 in H. unfold Worker.find_next, Worker.cur_page in H.
  destruct (Worker.pg_next (Worker.site_page web (Worker.cur_url s))) as [el|];
    [|unfold Worker.ret in H; loop_exit H Hs].
  unfold Worker.bind at 1 in H. unfold Worker._is_blocked_or_redirected in H.
  destruct (Worker.blocked_or_redirected_url (Worker.cur_url s));
    [unfold Worker.ret in H; loop_exit H Hs|].
  unfold Worker.bind at 1 in H.
  destruct (Worker._click_next_page web el s) as [o s1] eqn:Ec.
  pose proof (click_next_store web el s s1 o Ec) as (Hs1 & Hp1 & Hb1 & Ho).
  destruct o as [[pre|]|e]; [| wsimpl_in H; loop_exit_after H Hs Hs1 Hp1 Hb1 |].
  2: { injection H as <- <-. exists 0%nat; split; [now left|]. cbn [seq map]. rewrite app_nil_r.
       split; [rewrite Hs1, Hp1, Hb1; exact Hs | intros e' [= <-]; now apply Ho]. }
  wsimpl_in H.
  destruct (String.eqb (Worker.cur_url s1) pre) eqn:Eq; wsimpl_in H; rewrite ?Eq in H; wsimpl_in H;
    [loop_exit_after H Hs Hs1 Hp1 Hb1|..].
  all: destruct (Worker.last_page_heuristic (Worker.pg_title (Worker.site_page web (Worker.cur_url s1)))
                   (Worker.pg_source (Worker.site_page web (Worker.cur_url s1)))) eqn:Hl;
    wsimpl_in H; [loop_exit_after H Hs Hs1 Hp1 Hb1|].
  match type of H with
       | Worker.pagination_loop _ _ (S pn) ?st = _ =>
           destruct (IH (S pn) st (app L ["reviews_page_" ++ pretty (S pn)]) r s')
             as (j & Hj & Ha & He); [|exact H|]
       end;
       [cbn [Worker.saved Worker.total_pages Worker.total_bytes];
        rewrite Hs1, Hp1, Hb1; apply app_save; exact Hs|].
  exists (S j); split; [lia|]; split; [|exact He].
  cbn [seq map]; rewrite <- app_assoc in Ha; exact Ha.
Qed.

End ScrapeFacts.

Module ScrapeRun.
Import ScrapeFacts.

Lemma scrape_labels_prefix j :
  (j <= 499)%nat ->
  firstn (2 + j) scrape_labels =
  app ["product_page"; "reviews_page_1"] (map (fun n => "reviews_page_" ++ pretty n) (seq 2 j)).
Proof.
  intros Hj. unfold scrape_labels, Worker.MAX_REVIEW_PAGES.
  change (seq 1 500) with (1%nat :: seq 2 499). cbn [map firstn app Nat.add].
  rewrite firstn_map, firstn_seq_le by exact Hj. reflexivity.
Qed.

Ltac scrape_exit0 H :=
  injection H as <- <-; exists 0%nat; split; [lia|];
  split; [cbn [firstn Worker.emit Worker.saved Worker.total_pages Worker.total_bytes]; apply app_nil|];
  repeat split; intros; try discriminate; try lia.

Ltac scrape_exit1 H :=
  injection H as <- <-; exists 1%nat; split; [lia|];
  split; [change (firstn 1 scrape_labels) with (app [] ["product_page"]);
          cbn [Worker.emit Worker.saved Worker.total_pages Worker.total_bytes];
          apply app_save, app_nil|];
  repeat split; intros; try discriminate; try lia;
  try (match goal with Hr : Worker.Raised _ = Worker.Raised _ |- _ =>
         injection Hr as <-; (left; reflexivity) || (right; reflexivity) end).

(** The shape of every run of [scrape_product_to_reviews]. *)
Lemma scrape_summary (web : Worker.site) (url : string) (s0 : Worker.state) r s' :
  Worker.scrape_product_to_reviews web url s0 = (r, s') ->
  exists k, (k <= 501)%nat /\
    appended s0 (Worker.saved s') (Worker.total_pages s') (Worker.total_bytes s')
      (firstn k scrape_labels) /\
    (r = Worker.Ok true -> 2 <= k)%nat /\ (r = Worker.Ok false -> k <= 1)%nat /\
    (forall e, r = Worker.Raised e -> e = "TimeoutException" \/ e = "AttributeError").
Proof.
  intros H. unfold Worker.scrape_product_to_reviews in H. unfold Worker.get at 1 in H.
  destruct (Worker.site_timeout web url); [cbn in H; scrape_exit0 H|].
  wsimpl_in H.
  destruct (Detection.check_for_blocks url (Worker.pg_source (Worker.site_page web url)))
    as [[|] rr]; wsimpl_in H; [scrape_exit0 H|].
  destruct (Worker.pg_see_more (Worker.site_page web url)) as [el|]; wsimpl_in H;
    [|scrape_exit1 H].
  destruct (Worker.el_href el) as [href|]; wsimpl_in H;
    [|scrape_exit1 H].
  destruct (String.prefix "/" href); wsimpl_in H.
  all: match type of H with
       | context [Worker.get ?w ?u1] =>
           unfold Worker.get at 1 in H; destruct (Worker.site_timeout w u1); wsimpl_in H;
           [scrape_exit1 H|];
           destruct (Detection.check_for_blocks u1 (Worker.pg_source (Worker.site_page w u1)))
             as [[|] rr']; wsimpl_in H; [scrape_exit1 H|]
       end.
  all: unfold Worker.bind at 1 in H.
  all: match type of H with
       | context [Worker.pagination_loop ?w ?f 1 ?st] =>
           destruct (Worker.pagination_loop w f 1 st) as [o s3] eqn:El;
           destruct (pagination_appends w s0 f 1 st ["product_page"; "reviews_page_1"] o s3)
             as (j & Hj & Ha & He);
           [ change ["product_page"; "reviews_page_1"]
               with (app (app [] ["product_page"]) ["reviews_page_1"]);
             cbn [Worker.emit Worker.saved Worker.total_pages Worker.total_bytes];
             apply app_save, app_save, app_nil
           | exact El | ]
       end.
  all: assert (Hj' : (j <= 499)%nat) by (unfold Worker.MAX_REVIEW_PAGES in Hj; lia).
  all: destruct o as [[]|e]; cbn in H; injection H as <- <-; exists (2 + j)%nat;
    (split; [lia|]); (split; [rewrite scrape_labels_prefix by exact Hj'; exact Ha|]);
    repeat split; intros; try discriminate; try lia.
  all: left; apply He; congruence.
Qed.

End ScrapeRun.

(** [scrape_product_to_reviews] only appends to the output file: the new
    blocks carry, in write order, the labels product_page, reviews_page_1,
    reviews_page_2, ... up to at most reviews_page_500, and [total_pages]
    and [total_bytes] grow by the number of new blocks and the sum of their
    HTML lengths. *)
Theorem scrape_appends_labelled_blocks (web : Worker.site) (url : string) (s0 : Worker.state) :
  exists k, (k <= 501)%nat /\
    appended s0 (Worker.saved (snd (Worker.scrape_product_to_reviews web url s0)))
      (Worker.total_pages (snd (Worker.scrape_product_to_reviews web url s0)))
      (Worker.total_bytes (snd (Worker.scrape_product_to_reviews web url s0)))
      (firstn k scrape_labels).
Proof.
  destruct (Worker.scrape_product_to_reviews web url s0) as [r s'] eqn:E.
  destruct (ScrapeRun.scrape_summary web url s0 r s' E) as (k & Hk & Ha & _).
  exists k. split; [exact Hk | exact Ha].
Qed.


(** ** Fingerprint ranges *)

Section FingerprintRanges.

Variable rng : Type.
Variable _randbelow : nat -> rng -> nat * rng.
Variable random : rng -> Q * rng.
Variable md5_hexdigest : string -> string.

(** [_randbelow(n)] returns a number in [0, n) and [random()] one in [0, 1). *)
Hypothesis randbelow_lt : forall n g, (0 < n)%nat -> (fst (_randbelow n g) < n)%nat.
Hypothesis random_unit : forall g, (0 <= fst (random g) < 1)%Q.





End FingerprintRanges.


(** ** The extraction pipeline *)

Module ExtractFacts.
Import Extract.

Lemma dedup_inv_nil : dedup_inv [] [] ∅.
Proof.
  repeat split.
  - constructor.
  - apply sublist_nil_l.
  - intros r [].
  - intros r [].
  - intros Hk. set_solver.
  - intros [].
Qed.

Lemma add_review_inv all out seen r :
  dedup_inv all out seen ->
  dedup_inv (app all [r]) (fst (add_review (out, seen) r)) (snd (add_review (out, seen) r)).
Proof.
  intros (Hnd & Hsub & Hcov & Hfirst & Hseen). unfold add_review.
  case_bool_decide as Hin; cbn [fst snd].
  - apply Hseen in Hin. repeat split.
    + exact Hnd.
    + apply sublist_inserts_r, Hsub.
    + intros r' Hr'. apply in_app_or in Hr' as [Hr' | [<- | []]]; auto.
    + intros r' Hr'. destruct (Hfirst r' Hr') as (pre & post & -> & Hnpre).
      exists pre, (app post [r]). split; [|exact Hnpre].
      rewrite <- app_assoc. reflexivity.
    + intros Hk. apply Hseen, Hk.
    + intros Hk. apply Hseen, Hk.
  - assert (Hnew : ~ In (review_key r) (map review_key out)) by (intros Hk; apply Hin, Hseen, Hk).
    assert (Hnall : ~ In (review_key r) (map review_key all)).
    { intros Hk. apply in_map_iff in Hk as (r0 & Hr0 & Hin0).
      apply Hnew. rewrite <- Hr0. apply Hcov, Hin0. }
    repeat split.
    + rewrite map_app. apply NoDup_app. repeat split; [exact Hnd| |].
      * intros k Hk1 Hk2. apply list_elem_of_singleton in Hk2. subst k.
        apply Hnew, list_elem_of_In, Hk1.
      * apply NoDup_singleton.
    + apply sublist_app; [exact Hsub | reflexivity].
    + intros r' Hr'. rewrite map_app. apply in_or_app.
      apply in_app_or in Hr' as [Hr' | [<- | []]]; [left; auto | right; left; reflexivity].
    + intros r' Hr'. apply in_app_or in Hr' as [Hr' | [<- | []]].
      * destruct (Hfirst r' Hr') as (pre & post & -> & Hnpre).
        exists pre, (app post [r]). split; [|exact Hnpre].
        rewrite <- app_assoc. reflexivity.
      * exists all, []. split; [reflexivity | exact Hnall].
    + intros Hk. apply elem_of_union in Hk as [Hk | Hk].
      * apply elem_of_singleton in Hk. subst k. rewrite map_app. apply in_or_app. right. left. reflexivity.
      * rewrite map_app. apply in_or_app. left. apply Hseen, Hk.
    + intros Hk. rewrite map_app in Hk. apply elem_of_union.
      apply in_app_or in Hk as [Hk | [<- | []]].
      * right. apply Hseen, Hk.
      * left. apply elem_of_singleton. reflexivity.
Qed.

Lemma add_reviews_inv rs all out seen :
  dedup_inv all out seen ->
  dedup_inv (app all rs) (fst (fold_left add_review rs (out, seen)))
                         (snd (fold_left add_review rs (out, seen))).
Proof.
  revert all out seen. induction rs as [|r rs IH]; intros all out seen Hinv; cbn [fold_left].
  - rewrite app_nil_r. exact Hinv.
  - pose proof (add_review_inv all out seen r Hinv) as Hstep.
    destruct (add_review (out, seen) r) as [out1 seen1] eqn:E.
    replace (app all (r :: rs)) with (app (app all [r]) rs) by (rewrite <- app_assoc; reflexivity).
    apply IH, Hstep.
Qed.

Section Pages.
Variable get_reviews : Loader.chars -> list review.

Lemma collect_pages_inv pages all out seen :
  dedup_inv all out seen ->
  let acc := fold_left (fun acc page => fold_left add_review (get_reviews (Loader.soup page)) acc)
                       pages (out, seen) in
  dedup_inv (app all (concat (map (fun p => get_reviews (Loader.soup p)) pages))) (fst acc) (snd acc).
Proof.
  revert all out seen. induction pages as [|pg pages IH]; intros all out seen Hinv; cbn [fold_left concat map].
  - rewrite app_nil_r. exact Hinv.
  - pose proof (add_reviews_inv (get_reviews (Loader.soup pg)) all out seen Hinv) as Hstep.
    destruct (fold_left add_review (get_reviews (Loader.soup pg)) (out, seen)) as [out1 seen1].
    rewrite app_assoc. apply IH, Hstep.
Qed.

End Pages.

Lemma product_info_first gpt gp gai pre p post :
  Forall (fun q => Loader.label q <> Loader.cs "product_page" /\
                   Loader.label q <> Loader.cs "full_file") pre ->
  Loader.label p = Loader.cs "product_page" \/ Loader.label p = Loader.cs "full_file" ->
  product_info gpt gp gai (app pre (p :: post)) =
    (gpt (Loader.soup p), gp (Loader.soup p), gai (Loader.soup p)).
Proof.
  intros Hpre Hp. induction Hpre as [|q pre [Hq1 Hq2] _ IH]; cbn [app product_info].
  - destruct Hp as [Hp | Hp]; rewrite Hp; reflexivity.
  - rewrite (bool_decide_eq_false_2 _ Hq1), (bool_decide_eq_false_2 _ Hq2). exact IH.
Qed.

Lemma product_info_none gpt gp gai pages :
  Forall (fun q => Loader.label q <> Loader.cs "product_page" /\
                   Loader.label q <> Loader.cs "full_file") pages ->
  product_info gpt gp gai pages = (None, None, []).
Proof.
  induction 1 as [|q pages [Hq1 Hq2] _ IH]; cbn [product_info]; [reflexivity|].
  rewrite (bool_decide_eq_false_2 _ Hq1), (bool_decide_eq_false_2 _ Hq2). exact IH.
Qed.

End ExtractFacts.

(** [extract_all]: the reviews kept are those of all pages in page order with
    one review per [(profile_name, review_tag)] key, each the first review of
    its key, and every key of the pages appears. *)
Theorem extract_all_reviews_dedup
  (get_product_title get_price : Loader.chars -> option string)
  (get_about_items : Loader.chars -> list string)
  (get_reviews : Loader.chars -> list Extract.review) (raw : Loader.chars) :
  let all := concat (map (fun p => get_reviews (Loader.soup p)) (Loader.split_pages raw)) in
  let out := Extract.reviews (Extract.extract_all get_product_title get_price get_about_items
                                                  get_reviews raw) in
  NoDup (map Extract.review_key out) /\
  sublist out all /\
  (forall r, In r all -> In (Extract.review_key r) (map Extract.review_key out)) /\
  (forall r, In r out -> exists pre post, all = app pre (r :: post) /\
                         ~ In (Extract.review_key r) (map Extract.review_key pre)).
Proof.
  cbv zeta. unfold Extract.extract_all.
  destruct (Extract.product_info _ _ _ _) as [[t pr] ab]. cbn [Extract.reviews].
  unfold Extract.collect_reviews.
  pose proof (ExtractFacts.collect_pages_inv get_reviews (Loader.split_pages raw) [] [] ∅
                ExtractFacts.dedup_inv_nil) as (Hnd & Hsub & Hcov & Hfirst & _).
  cbn [app] in *. auto.
Qed.

(** [extract_all]: title, price and bullets come from the first page labelled
    [product_page] or [full_file]; with no such page they are [None], [None]
    and [[]]; a file without any page header gives those of the whole file. *)
Theorem extract_all_product_info
  (get_product_title get_price : Loader.chars -> option string)
  (get_about_items : Loader.chars -> list string)
  (get_reviews : Loader.chars -> list Extract.review) (raw : Loader.chars) :
  let res := Extract.extract_all get_product_title get_price get_about_items get_reviews raw in
  (forall pre p post,
     Loader.split_pages raw = app pre (p :: post) ->
     Forall (fun q => Loader.label q <> Loader.cs "product_page" /\
                      Loader.label q <> Loader.cs "full_file") pre ->
     Loader.label p = Loader.cs "product_page" \/ Loader.label p = Loader.cs "full_file" ->
     Extract.product_title res = get_product_title (Loader.soup p) /\
     Extract.price res = get_price (Loader.soup p) /\
     Extract.about_this_item res = get_about_items (Loader.soup p)) /\
  (Forall (fun q => Loader.label q <> Loader.cs "product_page" /\
                    Loader.label q <> Loader.cs "full_file") (Loader.split_pages raw) ->
   Extract.product_title res = None /\ Extract.price res = None /\
   Extract.about_this_item res = []) /\
  (Loader.finditer raw 0 0 = [] ->
   Extract.product_title res = get_product_title raw /\ Extract.price res = get_price raw /\
   Extract.about_this_item res = get_about_items raw).
Proof.
  cbv zeta. unfold Extract.extract_all. split; [|split].
  - intros pre p post Hsp Hpre Hp. rewrite Hsp, (ExtractFacts.product_info_first _ _ _ pre p post Hpre Hp).
    repeat split.
  - intros Hall. rewrite (ExtractFacts.product_info_none _ _ _ _ Hall). repeat split.
  - intros Hf. unfold Loader.split_pages. rewrite Hf.
    rewrite (ExtractFacts.product_info_first _ _ _ [] (Loader.mk_page (Loader.cs "full_file") [] [] raw) []);
      [repeat split | constructor | right; reflexivity].
Qed.
